(** * auto_checkin: lucky-draw check-in, redemption, daily counter, reports

    A shallow embedding of [src/auto_checkin.py] and the properties of its
    response interpreter, attempt budget, daily counter and reports.

    Conventions of the embedding.
    - A Python [str] is a list of Unicode code points ([str := list N]).
      Literals are written with [u] (UTF-8 decoding of the Rocq literal)
      or [q], in which the apostrophe stands for the double-quote
      character.
    - A Python value that comes out of [json.loads] is a [pyval].  A dict is
      an association list in insertion order with distinct keys.
    - A float is kept as the JSON lexeme it was read from; what Python does
      with it (truth value, [int()], [str()], [json.dumps]) is left to the
      [runtime] parameter, together with the other library behaviour that is
      not modelled ([int(str)], [repr(str)], the entity table of
      [html.unescape], the text of a [JSONDecodeError]).
    - Effects (state file, clock, network, report files, notifier) are
      threaded through a [world]; an uncaught exception ends the run.
    - Left out: what is printed on the console, the pauses between
      requests, the creation of the directories, failures of the writes,
      and the limits of the interpreter (depth of recursion, length of an
      integer literal). *)

From Stdlib Require Import String Ascii.
From Stdlib Require Import List ZArith NArith Lia Bool.
From Stdlib Require DecimalFacts DecimalPos DecimalN.
Import ListNotations.

Set Implicit Arguments.
Set Warnings "-register-all".

(** ** Strings *)

Definition str := list N.

(** UTF-8 decoding of a Rocq string literal into code points. *)
Fixpoint utf8_go (s : string) (acc : N) (k : nat) : str :=
  match s with
  | EmptyString => []
  | String a s' =>
      let b := N_of_ascii a in
      match k with
      | O => if (b <? 128)%N then b :: utf8_go s' 0%N 0
             else if (b <? 224)%N then utf8_go s' (b - 192)%N 1
             else if (b <? 240)%N then utf8_go s' (b - 224)%N 2
             else utf8_go s' (b - 240)%N 3
      | S O => (acc * 64 + (b - 128))%N :: utf8_go s' 0%N 0
      | S k' => utf8_go s' (acc * 64 + (b - 128))%N k'
      end
  end.

Definition u (s : string) : str := utf8_go s 0%N 0.

Definition c_dquote : N := 34.
Definition c_apos : N := 39.
Definition c_newline : N := 10.

(** [q lit]: a literal in which the apostrophe stands for the double
    quote. *)
Definition q (s : string) : str :=
  map (fun c => if (c =? c_apos)%N then c_dquote else c) (u s).

Fixpoint str_eqb (a b : str) : bool :=
  match a, b with
  | [], [] => true
  | x :: a', y :: b' => (x =? y)%N && str_eqb a' b'
  | _, _ => false
  end.

(** [strip_prefix p t]: [t] without its prefix [p], when it has it. *)
Fixpoint strip_prefix (p t : str) : option str :=
  match p with
  | [] => Some t
  | c :: p' =>
      match t with
      | d :: t' => if (c =? d)%N then strip_prefix p' t' else None
      | [] => None
      end
  end.

Definition starts_with (p t : str) : bool :=
  match strip_prefix p t with Some _ => true | None => false end.

(** Python's [p in t] on strings. *)
Fixpoint contains (p t : str) : bool :=
  starts_with p t ||
  match t with
  | [] => false
  | _ :: t' => contains p t'
  end.

(** Longest prefix whose characters satisfy [f], and the rest. *)
Fixpoint span (f : N -> bool) (t : str) : str * str :=
  match t with
  | [] => ([], [])
  | c :: t' =>
      if f c then let (a, b) := span f t' in (c :: a, b) else ([], t)
  end.

(** [s[-n:]] for [n > 0]. *)
Definition last_n {A} (n : nat) (l : list A) : list A :=
  skipn (length l - n) l.

Fixpoint join (sep : str) (l : list str) : str :=
  match l with
  | [] => []
  | [x] => x
  | x :: l' => x ++ sep ++ join sep l'
  end.

(** Decimal digits. *)
Fixpoint uint_chars (d : Decimal.uint) : str :=
  match d with
  | Decimal.Nil => []
  | Decimal.D0 d => 48%N :: uint_chars d
  | Decimal.D1 d => 49%N :: uint_chars d
  | Decimal.D2 d => 50%N :: uint_chars d
  | Decimal.D3 d => 51%N :: uint_chars d
  | Decimal.D4 d => 52%N :: uint_chars d
  | Decimal.D5 d => 53%N :: uint_chars d
  | Decimal.D6 d => 54%N :: uint_chars d
  | Decimal.D7 d => 55%N :: uint_chars d
  | Decimal.D8 d => 56%N :: uint_chars d
  | Decimal.D9 d => 57%N :: uint_chars d
  end.

Definition str_of_N (n : N) : str := uint_chars (N.to_uint n).

(** [str(z)] for a Python int. *)
Definition str_of_Z (z : Z) : str :=
  if (z <? 0)%Z then 45%N :: str_of_N (Z.abs_N z) else str_of_N (Z.to_N z).

Definition is_digit (c : N) : bool := (48 <=? c)%N && (c <=? 57)%N.

(** [[0-9a-fA-F]]. *)
Definition is_hex (c : N) : bool :=
  is_digit c || ((97 <=? c)%N && (c <=? 102)%N) || ((65 <=? c)%N && (c <=? 70)%N).

(** [\s] of a Unicode pattern: the characters for which [str.isspace]
    holds. *)
Definition is_space (c : N) : bool :=
  ((9 <=? c)%N && (c <=? 13)%N) || ((28 <=? c)%N && (c <=? 32)%N)
  || (c =? 133)%N || (c =? 160)%N || (c =? 5760)%N
  || ((8192 <=? c)%N && (c <=? 8202)%N)
  || (c =? 8232)%N || (c =? 8233)%N || (c =? 8239)%N || (c =? 8287)%N
  || (c =? 12288)%N.

Definition skip_spaces (t : str) : str := snd (span is_space t).

(** ** Python values *)

Inductive pyval :=
| VNone
| VBool (b : bool)
| VInt (z : Z)
| VFloat (lexeme : str)
| VStr (s : str)
| VList (l : list pyval)
| VDict (d : list (str * pyval)).

Definition dict := list (str * pyval).

Fixpoint dict_get (k : str) (d : dict) : option pyval :=
  match d with
  | [] => None
  | (k', v) :: d' => if str_eqb k k' then Some v else dict_get k d'
  end.

(** [d[k] = v]: an existing key keeps its place, a new one goes last. *)
Fixpoint dict_set (k : str) (v : pyval) (d : dict) : dict :=
  match d with
  | [] => [(k, v)]
  | (k', v') :: d' =>
      if str_eqb k k' then (k', v) :: d' else (k', v') :: dict_set k v d'
  end.

(** Library behaviour the embedding does not compute. *)
Class runtime := {
  float_is_zero : str -> bool;        (* float(lexeme) == 0.0 *)
  float_trunc : str -> option Z;      (* int(float(lexeme)); None: raises *)
  float_str : str -> str;             (* str(float(lexeme)) *)
  float_json : str -> str;            (* json.dumps(float(lexeme)) *)
  int_of_str : str -> option Z;       (* int(s); None: ValueError *)
  repr_str : str -> str;              (* repr(s) *)
  charref_sub : str -> str;           (* html.unescape on a text with & *)
  json_error_text : str -> str        (* str(e) of json.loads's error *)
}.

Section Values.
Context {rt : runtime}.

(** [bool(v)]. *)
Definition truthy (v : pyval) : bool :=
  match v with
  | VNone => false
  | VBool b => b
  | VInt z => negb (z =? 0)%Z
  | VFloat x => negb (float_is_zero x)
  | VStr s => match s with [] => false | _ => true end
  | VList l => match l with [] => false | _ => true end
  | VDict d => match d with [] => false | _ => true end
  end.

(** [a or b]. *)
Definition py_or (a b : pyval) : pyval := if truthy a then a else b.

(** [str(v)] and [repr(v)], as used by f-strings. *)
Fixpoint py_fmt (top : bool) (v : pyval) : str :=
  match v with
  | VNone => u "None"
  | VBool true => u "True"
  | VBool false => u "False"
  | VInt z => str_of_Z z
  | VFloat x => float_str x
  | VStr s => if top then s else repr_str s
  | VList l => u "[" ++ join (u ", ") (map (py_fmt false) l) ++ u "]"
  | VDict d =>
      u "{" ++ join (u ", ")
        (map (fun kv => repr_str (fst kv) ++ u ": " ++ py_fmt false (snd kv)) d)
      ++ u "}"
  end.

Definition py_str (v : pyval) : str := py_fmt true v.

End Values.

(** ** [json.loads] *)

(** Outcome of a scanner: a value and the unread rest, a decoding error, or
    not enough fuel (which [json_loads] never runs into, see
    [json_loads_fuel]). *)
Inductive pres (A : Type) :=
| POk (a : A) (rest : str)
| PFail
| PFuel.
Arguments PFail {A}.
Arguments PFuel {A}.

(** The whitespace of the JSON grammar: space, tab, newline, return. *)
Definition is_json_ws (c : N) : bool :=
  (c =? 32)%N || (c =? 9)%N || (c =? 10)%N || (c =? 13)%N.

Definition json_ws (t : str) : str := snd (span is_json_ws t).

Definition hex_val (c : N) : option N :=
  if is_digit c then Some (c - 48)%N
  else if (97 <=? c)%N && (c <=? 102)%N then Some (c - 87)%N
  else if (65 <=? c)%N && (c <=? 70)%N then Some (c - 55)%N
  else None.

Definition hex4 (a b c d : N) : option N :=
  match hex_val a, hex_val b, hex_val c, hex_val d with
  | Some x, Some y, Some z, Some w => Some (((x * 16 + y) * 16 + z) * 16 + w)%N
  | _, _, _, _ => None
  end.

Definition is_high_surrogate (c : N) : bool := (55296 <=? c)%N && (c <=? 56319)%N.
Definition is_low_surrogate (c : N) : bool := (56320 <=? c)%N && (c <=? 57343)%N.
Definition join_surrogates (hi lo : N) : N :=
  (65536 + ((hi - 55296) * 1024 + (lo - 56320)))%N.

Definition simple_escape (e : N) : option N :=
  if (e =? 34)%N then Some 34%N
  else if (e =? 92)%N then Some 92%N
  else if (e =? 47)%N then Some 47%N
  else if (e =? 98)%N then Some 8%N
  else if (e =? 102)%N then Some 12%N
  else if (e =? 110)%N then Some 10%N
  else if (e =? 114)%N then Some 13%N
  else if (e =? 116)%N then Some 9%N
  else None.

Definition cons_res (c : N) (r : option (str * str)) : option (str * str) :=
  match r with
  | Some (s, rest) => Some (c :: s, rest)
  | None => None
  end.

(** The body of a string, after its opening quote (strict mode: no raw
    control character). *)
Fixpoint scan_string (t : str) : option (str * str) :=
  match t with
  | [] => None
  | c :: t1 =>
      if (c =? 34)%N then Some ([], t1)
      else if (c =? 92)%N then
        match t1 with
        | [] => None
        | e :: t2 =>
            if (e =? 117)%N then
              match t2 with
              | h1 :: h2 :: h3 :: h4 :: t3 =>
                  match hex4 h1 h2 h3 h4 with
                  | None => None
                  | Some cp =>
                      match t3 with
                      | b :: e' :: k1 :: k2 :: k3 :: k4 :: t4 =>
                          if is_high_surrogate cp && (b =? 92)%N && (e' =? 117)%N
                          then
                            match hex4 k1 k2 k3 k4 with
                            | None => None
                            | Some lo =>
                                if is_low_surrogate lo
                                then cons_res (join_surrogates cp lo) (scan_string t4)
                                else cons_res cp (scan_string t3)
                            end
                          else cons_res cp (scan_string t3)
                      | _ => cons_res cp (scan_string t3)
                      end
                  end
              | _ => None
              end
            else
              match simple_escape e with
              | Some c' => cons_res c' (scan_string t2)
              | None => None
              end
        end
      else if (c <? 32)%N then None
      else cons_res c (scan_string t1)
  end.

Fixpoint uint_of_chars (s : str) : Decimal.uint :=
  match s with
  | [] => Decimal.Nil
  | c :: s' =>
      let d := uint_of_chars s' in
      if (c =? 48)%N then Decimal.D0 d
      else if (c =? 49)%N then Decimal.D1 d
      else if (c =? 50)%N then Decimal.D2 d
      else if (c =? 51)%N then Decimal.D3 d
      else if (c =? 52)%N then Decimal.D4 d
      else if (c =? 53)%N then Decimal.D5 d
      else if (c =? 54)%N then Decimal.D6 d
      else if (c =? 55)%N then Decimal.D7 d
      else if (c =? 56)%N then Decimal.D8 d
      else Decimal.D9 d
  end.

Definition digits_value (s : str) : N := N.of_uint (uint_of_chars s).

(** The integer part, an optional minus and then 0 or a run of digits
    that does not start with 0: sign, digits, rest. *)
Definition scan_int_part (t : str) : option (bool * str * str) :=
  let '(neg, t1) :=
    match t with
    | c :: r => if (c =? 45)%N then (true, r) else (false, t)
    | [] => (false, t)
    end in
  match t1 with
  | c :: r =>
      if (c =? 48)%N then Some (neg, [c], r)
      else if is_digit c then let (ds, r') := span is_digit r in Some (neg, c :: ds, r')
      else None
  | [] => None
  end.

(** The optional fraction: a dot and at least one digit. *)
Definition scan_frac (t : str) : str * str :=
  match t with
  | p :: d :: r =>
      if (p =? 46)%N && is_digit d
      then let (ds, r') := span is_digit r in (p :: d :: ds, r')
      else ([], t)
  | _ => ([], t)
  end.

(** The optional exponent: e or E, an optional sign, at least one digit. *)
Definition scan_exp (t : str) : str * str :=
  match t with
  | e :: r =>
      if (e =? 101)%N || (e =? 69)%N then
        let '(sg, r1) :=
          match r with
          | c :: r' => if (c =? 45)%N || (c =? 43)%N then ([c], r') else ([], r)
          | [] => ([], r)
          end in
        let (ds, r2) := span is_digit r1 in
        match ds with
        | [] => ([], t)
        | _ => (e :: sg ++ ds, r2)
        end
      else ([], t)
  | [] => ([], t)
  end.

Definition scan_number (t : str) : option (pyval * str) :=
  match scan_int_part t with
  | None => None
  | Some (neg, ds, r) =>
      let (fr, r1) := scan_frac r in
      let (ex, r2) := scan_exp r1 in
      match fr, ex with
      | [], [] =>
          let n := Z.of_N (digits_value ds) in
          Some (VInt (if neg then (- n)%Z else n), r2)
      | _, _ => Some (VFloat ((if neg then [45%N] else []) ++ ds ++ fr ++ ex), r2)
      end
  end.

Definition lit_res (lit : str) (v : pyval) (t : str) : pres pyval :=
  match strip_prefix lit t with
  | Some r => POk v r
  | None => PFail
  end.

(** The dict a sequence of parsed members builds: a repeated key keeps its
    first place and takes its last value. *)
Definition dict_of_pairs (l : list (str * pyval)) : dict :=
  fold_left (fun d kv => dict_set (fst kv) (snd kv) d) l [].

(** [scan_once]: one JSON value at the head of [t]. *)
Fixpoint parse_value (fuel : nat) (t : str) {struct fuel} : pres pyval :=
  match fuel with
  | O => PFuel
  | S f =>
      match t with
      | [] => PFail
      | c :: t' =>
          if (c =? 34)%N then
            match scan_string t' with
            | Some (s, r) => POk (VStr s) r
            | None => PFail
            end
          else if (c =? 123)%N then
            match json_ws t' with
            | c1 :: r1 =>
                if (c1 =? 125)%N then POk (VDict []) r1
                else
                  match parse_members f (c1 :: r1) with
                  | POk l r => POk (VDict (dict_of_pairs l)) r
                  | PFail => PFail
                  | PFuel => PFuel
                  end
            | [] => PFail
            end
          else if (c =? 91)%N then
            match json_ws t' with
            | c1 :: r1 =>
                if (c1 =? 93)%N then POk (VList []) r1
                else
                  match parse_items f (c1 :: r1) with
                  | POk l r => POk (VList l) r
                  | PFail => PFail
                  | PFuel => PFuel
                  end
            | [] => PFail
            end
          else if (c =? 110)%N then lit_res (u "null") VNone t
          else if (c =? 116)%N then lit_res (u "true") (VBool true) t
          else if (c =? 102)%N then lit_res (u "false") (VBool false) t
          else if (c =? 78)%N then lit_res (u "NaN") (VFloat (u "NaN")) t
          else if (c =? 73)%N then lit_res (u "Infinity") (VFloat (u "Infinity")) t
          else if starts_with (u "-Infinity") t
          then lit_res (u "-Infinity") (VFloat (u "-Infinity")) t
          else
            match scan_number t with
            | Some (v, r) => POk v r
            | None => PFail
            end
      end
  end

(** The elements of a non-empty array, up to and including its bracket. *)
with parse_items (fuel : nat) (t : str) {struct fuel} : pres (list pyval) :=
  match fuel with
  | O => PFuel
  | S f =>
      match parse_value f t with
      | POk v r =>
          match json_ws r with
          | c :: r1 =>
              if (c =? 93)%N then POk [v] r1
              else if (c =? 44)%N then
                match parse_items f (json_ws r1) with
                | POk l r2 => POk (v :: l) r2
                | PFail => PFail
                | PFuel => PFuel
                end
              else PFail
          | [] => PFail
          end
      | PFail => PFail
      | PFuel => PFuel
      end
  end

(** The members of a non-empty object, up to and including its brace. *)
with parse_members (fuel : nat) (t : str) {struct fuel}
  : pres (list (str * pyval)) :=
  match fuel with
  | O => PFuel
  | S f =>
      match t with
      | c :: t' =>
          if (c =? 34)%N then
            match scan_string t' with
            | Some (k, r) =>
                match json_ws r with
                | c1 :: r1 =>
                    if (c1 =? 58)%N then
                      match parse_value f (json_ws r1) with
                      | POk v r2 =>
                          match json_ws r2 with
                          | c2 :: r3 =>
                              if (c2 =? 125)%N then POk [(k, v)] r3
                              else if (c2 =? 44)%N then
                                match parse_members f (json_ws r3) with
                                | POk l r4 => POk ((k, v) :: l) r4
                                | PFail => PFail
                                | PFuel => PFuel
                                end
                              else PFail
                          | [] => PFail
                          end
                      | PFail => PFail
                      | PFuel => PFuel
                      end
                    else PFail
                | [] => PFail
                end
            | None => PFail
            end
          else PFail
      | [] => PFail
      end
  end.

(** [json.loads(t)]: [None] when it raises. *)
Definition json_loads (t : str) : option pyval :=
  match parse_value (2 * length t + 1) (json_ws t) with
  | POk v r => match json_ws r with [] => Some v | _ => None end
  | _ => None
  end.

(** ** Exceptions, values that raise *)

Inductive exn :=
| SystemExit (msg : str)
| AttributeError
| TypeError
| ValueError.

Inductive result (A : Type) :=
| Ok (a : A)
| Err (e : exn).
Arguments Err {A}.

Section Library.
Context {rt : runtime}.

(** [int(v)]. *)
Definition py_int (v : pyval) : result Z :=
  match v with
  | VInt z => Ok z
  | VBool b => Ok (if b then 1 else 0)%Z
  | VFloat x => match float_trunc x with Some z => Ok z | None => Err ValueError end
  | VStr s => match int_of_str s with Some z => Ok z | None => Err ValueError end
  | VNone | VList _ | VDict _ => Err TypeError
  end.

(** [isinstance(v, int)]: [bool] is a subclass of [int]. *)
Definition isinstance_int (v : pyval) : bool :=
  match v with
  | VInt _ | VBool _ => true
  | _ => false
  end.

Definition is_dict (v : pyval) : bool :=
  match v with VDict _ => true | _ => false end.

(** [v.get(k, default)]; only a dict has [get]. *)
Definition py_get (v : pyval) (k : str) (default : pyval) : result pyval :=
  match v with
  | VDict d => Ok (match dict_get k d with Some x => x | None => default end)
  | _ => Err AttributeError
  end.

(** *** [json.dumps(v, ensure_ascii=False, indent=2)] *)

Definition hex_digit (n : N) : N := if (n <? 10)%N then (48 + n)%N else (87 + n)%N.

Definition json_escape_char (c : N) : str :=
  if (c =? 92)%N then [92; 92]%N
  else if (c =? 34)%N then [92; 34]%N
  else if (c =? 8)%N then [92; 98]%N
  else if (c =? 12)%N then [92; 102]%N
  else if (c =? 10)%N then [92; 110]%N
  else if (c =? 13)%N then [92; 114]%N
  else if (c =? 9)%N then [92; 116]%N
  else if (c <? 32)%N
  then [92; 117; 48; 48; hex_digit (c / 16); hex_digit (c mod 16)]%N
  else [c].

Definition json_string (s : str) : str :=
  c_dquote :: flat_map json_escape_char s ++ [c_dquote].

(** A newline and the indentation of nesting level [lvl]. *)
Definition newline_indent (lvl : nat) : str := c_newline :: repeat 32%N (2 * lvl).

Fixpoint dumps (lvl : nat) (v : pyval) : str :=
  match v with
  | VNone => u "null"
  | VBool true => u "true"
  | VBool false => u "false"
  | VInt z => str_of_Z z
  | VFloat x => float_json x
  | VStr s => json_string s
  | VList [] => u "[]"
  | VList l =>
      u "[" ++ newline_indent (S lvl)
      ++ join (u "," ++ newline_indent (S lvl)) (map (dumps (S lvl)) l)
      ++ newline_indent lvl ++ u "]"
  | VDict [] => u "{}"
  | VDict d =>
      u "{" ++ newline_indent (S lvl)
      ++ join (u "," ++ newline_indent (S lvl))
           (map (fun kv => json_string (fst kv) ++ u ": " ++ dumps (S lvl) (snd kv)) d)
      ++ newline_indent lvl ++ u "}"
  end.

Definition json_dumps (v : pyval) : str := dumps 0 v.

(** *** [html] *)

Definition html_escape_char (c : N) : str :=
  if (c =? 38)%N then u "&amp;"
  else if (c =? 60)%N then u "&lt;"
  else if (c =? 62)%N then u "&gt;"
  else if (c =? 34)%N then u "&quot;"
  else if (c =? 39)%N then u "&#x27;"
  else [c].

(** [html.escape(v)]: a value that is not a [str] has no [replace]. *)
Definition html_escape (v : pyval) : result str :=
  match v with
  | VStr s => Ok (flat_map html_escape_char s)
  | _ => Err AttributeError
  end.

(** [html.unescape(s)]: a text without ampersand is returned as it is. *)
Definition html_unescape (s : str) : str :=
  if contains [38%N] s then charref_sub s else s.

(** ** Tools *)

Definition mask_str (code : str) : str :=
  if length code <? 8 then u "****"
  else firstn 4 code ++ u "****" ++ last_n 4 code.

(** [mask_code(code)].  The annotation says [str]; what [main] passes is
    whatever the draw produced, so the other values are covered as Python
    treats them: a falsy one gives the placeholder, a list is sliced and
    formatted, a dict of 8 keys or more cannot be sliced, a number has no
    [len]. *)
Definition mask_code (code : pyval) : result str :=
  if negb (truthy code) then Ok (u "****")
  else
    match code with
    | VStr s => Ok (mask_str s)
    | VList l =>
        if length l <? 8 then Ok (u "****")
        else Ok (py_str (VList (firstn 4 l)) ++ u "****" ++ py_str (VList (last_n 4 l)))
    | VDict d => if length d <? 8 then Ok (u "****") else Err TypeError
    | _ => Err TypeError
    end.

End Library.

(** ** The response interpreter *)

Fixpoint re_search {A : Type} (m : str -> option A) (t : str) : option A :=
  match m t with
  | Some a => Some a
  | None =>
      match t with
      | [] => None
      | _ :: t' => re_search m t'
      end
  end.

Definition key_redemptionCode : str := q "'redemptionCode'".
Definition key_message : str := q "'message'".

(** A match of the code pattern (the key, optional blanks around the
    colon, then 16 hex digits or more between quotes) at the head of [t]:
    its group.  No backtracking is lost: a blank is never a colon or a
    quote, and the character that stops the hex run must be the closing
    quote. *)
Definition match_code_at (t : str) : option str :=
  match strip_prefix key_redemptionCode t with
  | None => None
  | Some t1 =>
      match skip_spaces t1 with
      | c :: t2 =>
          if (c =? 58)%N then
            match skip_spaces t2 with
            | d :: t3 =>
                if (d =? c_dquote)%N then
                  let (h, t4) := span is_hex t3 in
                  if 16 <=? length h then
                    match t4 with
                    | e :: _ => if (e =? c_dquote)%N then Some h else None
                    | [] => None
                    end
                  else None
                else None
            | [] => None
            end
          else None
      | [] => None
      end
  end.

Definition not_quote_nl (c : N) : bool :=
  negb (c =? c_dquote)%N && negb (c =? c_newline)%N.

(** A match of the message pattern at the head of [t]: the lazy group ends
    at the first quote, which must come before any newline. *)
Definition match_message_at (t : str) : option str :=
  match strip_prefix key_message t with
  | None => None
  | Some t1 =>
      match skip_spaces t1 with
      | c :: t2 =>
          if (c =? 58)%N then
            match skip_spaces t2 with
            | d :: t3 =>
                if (d =? c_dquote)%N then
                  let (g, t4) := span not_quote_nl t3 in
                  match t4 with
                  | e :: _ => if (e =? c_dquote)%N then Some g else None
                  | [] => None
                  end
                else None
            | [] => None
            end
          else None
      | [] => None
      end
  end.

(** [re.findall] of the fragment pattern (an opening brace, lazily up to
    the next closing brace, newlines included).  [cur] is the fragment
    being read, in reverse; an opening brace that is never closed matches
    nothing. *)
Fixpoint fragments_go (t : str) (cur : option str) : list str :=
  match t with
  | [] => []
  | c :: t' =>
      match cur with
      | None =>
          if (c =? 123)%N then fragments_go t' (Some [c]) else fragments_go t' None
      | Some acc =>
          if (c =? 125)%N then rev (c :: acc) :: fragments_go t' None
          else fragments_go t' (Some (c :: acc))
      end
  end.

Definition find_fragments (t : str) : list str := fragments_go t None.

(** The loop over the fragments: the first one [json.loads] accepts. *)
Fixpoint first_parsed (parts : list str) : pyval :=
  match parts with
  | [] => VDict []
  | part :: rest =>
      match json_loads part with
      | Some v => v
      | None => first_parsed rest
      end
  end.

Section Clients.
Context {rt : runtime}.

(** Lines 229-263 of [luckydraw_once]: code, message and parsed fragment
    out of the decoded body. *)
Definition interpret (status : Z) (text : str) : pyval * pyval * pyval :=
  let redemption :=
    match re_search match_code_at text with
    | Some h => VStr h
    | None => VNone
    end in
  let msg :=
    match re_search match_message_at text with
    | Some g => VStr (html_unescape g)
    | None => VStr []
    end in
  let parsed := first_parsed (rev (find_fragments text)) in
  let redemption :=
    if negb (truthy redemption) && truthy parsed && is_dict parsed
    then match py_get parsed (u "redemptionCode") VNone with
         | Ok v => v
         | Err _ => redemption
         end
    else redemption in
  let msg :=
    if negb (truthy msg) && truthy parsed && is_dict parsed
    then match py_get parsed (u "message") VNone with
         | Ok v => py_or v (VStr [])
         | Err _ => msg
         end
    else msg in
  let msg :=
    if negb (truthy msg) then VStr (u "HTTP " ++ str_of_Z status) else msg in
  (redemption, msg, parsed).

(** What the code looks at in a [requests.Response]: the status, [r.text]
    and [r.content.decode(utf-8, errors=replace)]. *)
Record response := {
  status_code : Z;
  text : str;
  content_utf8 : str
}.

(** A request either raises (with the text of the exception) or is
    answered. *)
Inductive http :=
| Failed (e : str)
| Answered (r : response).

Definition msg_401 : str := u "抽奖接口返回 401，疑似未登录或 Cookie 失效。".
Definition msg_403_challenge : str :=
  u "抽奖接口返回 403（Cloudflare 挑战），请更新 LUCKYDRAW_COOKIE/Next-Action 参数。".
Definition msg_403_expired : str :=
  u "抽奖接口返回 403，可能 Cookie 或 next-action 参数已过期。".
Definition challenge_marker : str := u "Just a moment".

(** [luckydraw_once] after the request: lines 208-263. *)
Definition draw_outcome (h : http) : pyval * pyval * pyval :=
  match h with
  | Failed e => (VNone, VStr (u "请求异常：" ++ e), VDict [])
  | Answered r =>
      let st := status_code r in
      if (st =? 401)%Z then
        (VNone, VStr msg_401, VDict [(u "status", VInt st)])
      else if (st =? 403)%Z then
        let preview := firstn 200 (text r) in
        let hint :=
          if contains challenge_marker preview
          then msg_403_challenge else msg_403_expired in
        (VNone, VStr hint,
         VDict [(u "status", VInt st); (u "preview", VStr preview)])
      else if (500 <=? st)%Z then
        (VNone, VStr (u "抽奖接口服务器错误：HTTP " ++ str_of_Z st),
         VDict [(u "status", VInt st)])
      else interpret st (content_utf8 r)
  end.

(** [topup_once] after the request: lines 300-322.  [j.get] is outside
    every [try], so a body that is JSON but not an object raises. *)
Definition topup_outcome (h : http) : result (bool * pyval * pyval) :=
  match h with
  | Failed e => Ok (false, VStr (u "兑换请求异常：" ++ e), VNone)
  | Answered r =>
      if (400 <=? status_code r)%Z then
        Ok (false,
            VStr (u "兑换接口异常：HTTP " ++ str_of_Z (status_code r) ++ u " "
                  ++ firstn 200 (text r)),
            VNone)
      else
        match json_loads (content_utf8 r) with
        | None =>
            Ok (false,
                VStr (u "兑换响应解析失败：" ++ json_error_text (content_utf8 r)),
                VNone)
        | Some j =>
            match py_get j (u "success") VNone with
            | Err e => Err e
            | Ok sv =>
                match py_get j (u "data") VNone with
                | Err e => Err e
                | Ok data_val =>
                    match py_get j (u "message") (VStr []) with
                    | Err e => Err e
                    | Ok msg => Ok (truthy sv, msg, data_val)
                    end
                end
            end
        end
  end.

(** ** Attempt records and the report *)

(** One entry of [results]: the dict built at lines 424-431. *)
Record attempt := {
  draw_msg : pyval;
  code : pyval;
  code_mask : str;
  topup_ok : bool;
  topup_amount : pyval;
  topup_msg : pyval
}.

Definition attempt_dict (r : attempt) : pyval :=
  VDict [(u "draw_msg", draw_msg r);
         (u "code", code r);
         (u "code_mask", VStr (code_mask r));
         (u "topup_ok", VBool (topup_ok r));
         (u "topup_amount", topup_amount r);
         (u "topup_msg", topup_msg r)].

(** Line 451: the sum over the records whose amount is an [int]. *)
Fixpoint total_amount (results : list attempt) : result Z :=
  match results with
  | [] => Ok 0%Z
  | r :: rest =>
      if isinstance_int (topup_amount r) then
        match py_int (topup_amount r) with
        | Err e => Err e
        | Ok z =>
            match total_amount rest with
            | Ok s => Ok (z + s)%Z
            | Err e => Err e
            end
        end
      else total_amount rest
  end.

Definition TIMEZONE : str := u "Asia/Singapore".
Definition mark_ok : str := u "✅".
Definition mark_ko : str := u "❌".

Definition html_part0 : str := q "<!doctype html>
<html lang='zh-CN'>
<head>
<meta charset='utf-8'>
<meta name='viewport' content='width=device-width,initial-scale=1'>
<title>每日签到兑换（脱敏） - ".

Definition html_part1 : str := q "</title>
<style>
body{font-family:system-ui,-apple-system,Segoe UI,Roboto,Helvetica,Arial,sans-serif;padding:24px;background:#fafafa;color:#222}
h1{margin:0 0 8px}
h2{margin:0 0 16px;font-weight:500;color:#555}
.card{background:#fff;border-radius:16px;box-shadow:0 6px 18px rgba(0,0,0,.06);padding:20px;max-width:1000px}
table{width:100%;border-collapse:collapse}
th,td{border-bottom:1px solid #eee;padding:10px 8px;text-align:left;font-size:14px;vertical-align:top}
th{background:#fafafa}
code.badge{background:#eef;border-radius:10px;padding:2px 8px}
footer{margin-top:20px;color:#777;font-size:12px}
.small{color:#777;font-size:12px}
</style>
</head>
<body>
<div class='card'>
  <h1>每日签到兑换（脱敏）</h1>
  <h2>".

Definition html_part2 : str := q "</h2>
  <p>总兑换额：<code class='badge'>".

Definition html_part3 : str := q "</code></p>
  <p class='small'>今日目标：5 次；页面展示为本次运行结果（历史可扩展为累计持久化）。时区：".

Definition html_part4 : str := q "</p>
  <table>
    <thead>
      <tr><th>#</th><th>抽奖提示</th><th>兑换码（脱敏）</th><th>兑换成功</th><th>兑换额</th><th>兑换信息</th></tr>
    </thead>
    <tbody>
      ".

Definition html_part5 : str := q "
    </tbody>
  </table>
  <footer>自动生成 · 敏感信息均已脱敏</footer>
</div>
</body>
</html>
".

Definition html_row (i : nat) (it : attempt) : result str :=
  match html_escape (draw_msg it) with
  | Err e => Err e
  | Ok dm =>
      match html_escape (VStr (code_mask it)) with
      | Err e => Err e
      | Ok cm =>
          match html_escape (topup_msg it) with
          | Err e => Err e
          | Ok tm =>
              Ok (u "<tr>"
                  ++ u "<td>" ++ str_of_Z (Z.of_nat i) ++ u "</td>"
                  ++ u "<td>" ++ dm ++ u "</td>"
                  ++ u "<td>" ++ cm ++ u "</td>"
                  ++ u "<td>" ++ (if topup_ok it then mark_ok else mark_ko) ++ u "</td>"
                  ++ u "<td>" ++ py_str (topup_amount it) ++ u "</td>"
                  ++ u "<td>" ++ tm ++ u "</td>"
                  ++ u "</tr>")
          end
      end
  end.

Fixpoint html_rows (i : nat) (items : list attempt) : result (list str) :=
  match items with
  | [] => Ok []
  | it :: rest =>
      match html_row i it with
      | Err e => Err e
      | Ok row =>
          match html_rows (S i) rest with
          | Err e => Err e
          | Ok rows => Ok (row :: rows)
          end
      end
  end.

Definition render_html (report_date : str) (items : list attempt)
    (total : Z) : result str :=
  match html_rows 1 items with
  | Err e => Err e
  | Ok rows =>
      match html_escape (VStr report_date), html_escape (VStr TIMEZONE) with
      | Ok d, Ok tz =>
          Ok (html_part0 ++ d ++ html_part1 ++ d ++ html_part2
              ++ str_of_Z total ++ html_part3 ++ tz ++ html_part4
              ++ join [c_newline] rows ++ html_part5)
      | Err e, _ => Err e
      | _, Err e => Err e
      end
  end.

End Clients.

(** ** Configuration, environment, world *)

(** The environment variables [main] reads. *)
Record config := {
  LUCKYDRAW_COOKIE : str;
  LUCKYDRAW_NEXT_ACTION : str;
  LUCKYDRAW_NEXT_ROUTER_STATE : str;
  TOPUP_COOKIE : str;
  TOPUP_NEW_API_USER : str;
  MAX_TIMES : Z;
  PUSH_URL : str;
  PUSH_TOKEN : str;
  PUSH_CHANNEL : str;
  PUSH_TEMPLATE : str
}.

(** A reading of [now_sgt()]: its date and its time of day, as [strftime]
    prints them. *)
Record datetime := {
  ymd : str;
  hms : str
}.

(** What the outside answers: the n-th draw request, the n-th redemption
    request (sent with this key), the n-th webhook request (sent with this
    payload), the n-th reading of the clock. *)
Record environment := {
  draw_reply : nat -> http;
  topup_reply : nat -> pyval -> http;
  push_reply : nat -> pyval -> http;
  clock : nat -> datetime
}.

(** [STATE_FILE]: absent, present but [read_text] raises, or its text. *)
Inductive file :=
| Missing
| Unreadable
| Content (s : str).

Record world := {
  state_file : file;
  clock_reads : nat;
  draws_sent : nat;
  topups_sent : list pyval;
  push_calls : list (str * str);
  push_posts : list pyval;
  report_json : option str;
  report_html : option str
}.

Definition initial_world (f : file) : world :=
  {| state_file := f; clock_reads := 0; draws_sent := 0; topups_sent := [];
     push_calls := []; push_posts := []; report_json := None;
     report_html := None |}.

(** Changes of one field of the world. *)
Definition tick (w : world) : world :=
  {| state_file := state_file w; clock_reads := S (clock_reads w);
     draws_sent := draws_sent w; topups_sent := topups_sent w;
     push_calls := push_calls w; push_posts := push_posts w;
     report_json := report_json w; report_html := report_html w |}.

Definition set_state_file (f : file) (w : world) : world :=
  {| state_file := f; clock_reads := clock_reads w;
     draws_sent := draws_sent w; topups_sent := topups_sent w;
     push_calls := push_calls w; push_posts := push_posts w;
     report_json := report_json w; report_html := report_html w |}.

Definition count_draw (w : world) : world :=
  {| state_file := state_file w; clock_reads := clock_reads w;
     draws_sent := S (draws_sent w); topups_sent := topups_sent w;
     push_calls := push_calls w; push_posts := push_posts w;
     report_json := report_json w; report_html := report_html w |}.

Definition log_topup (key : pyval) (w : world) : world :=
  {| state_file := state_file w; clock_reads := clock_reads w;
     draws_sent := draws_sent w; topups_sent := topups_sent w ++ [key];
     push_calls := push_calls w; push_posts := push_posts w;
     report_json := report_json w; report_html := report_html w |}.

Definition log_push_call (title content : str) (w : world) : world :=
  {| state_file := state_file w; clock_reads := clock_reads w;
     draws_sent := draws_sent w; topups_sent := topups_sent w;
     push_calls := push_calls w ++ [(title, content)]; push_posts := push_posts w;
     report_json := report_json w; report_html := report_html w |}.

Definition log_push_post (payload : pyval) (w : world) : world :=
  {| state_file := state_file w; clock_reads := clock_reads w;
     draws_sent := draws_sent w; topups_sent := topups_sent w;
     push_calls := push_calls w; push_posts := push_posts w ++ [payload];
     report_json := report_json w; report_html := report_html w |}.

Definition set_report_json (s : str) (w : world) : world :=
  {| state_file := state_file w; clock_reads := clock_reads w;
     draws_sent := draws_sent w; topups_sent := topups_sent w;
     push_calls := push_calls w; push_posts := push_posts w;
     report_json := Some s; report_html := report_html w |}.

Definition set_report_html (s : str) (w : world) : world :=
  {| state_file := state_file w; clock_reads := clock_reads w;
     draws_sent := draws_sent w; topups_sent := topups_sent w;
     push_calls := push_calls w; push_posts := push_posts w;
     report_json := report_json w; report_html := Some s |}.

(** A computation that reads and changes the world and may raise. *)
Definition M (A : Type) : Type := world -> result A * world.

Definition ret {A : Type} (a : A) : M A := fun w => (Ok a, w).
Definition raise {A : Type} (e : exn) : M A := fun w => (Err e, w).
Definition bind {A B : Type} (m : M A) (k : A -> M B) : M B :=
  fun w =>
    match m w with
    | (Ok a, w') => k a w'
    | (Err e, w') => (Err e, w')
    end.
Definition lift {A : Type} (r : result A) : M A := fun w => (r, w).

Notation "x <- m ;; k" := (bind m (fun x => k))
  (at level 61, m at next level, right associativity).
Notation "' p <- m ;; k" := (bind m (fun x => let 'p := x in k))
  (at level 61, p pattern, m at next level, right associativity).

Section Run.
Context {rt : runtime} (cfg : config) (env : environment).

Definition now_sgt : M datetime :=
  fun w => (Ok (clock env (clock_reads w)), tick w).

Definition today_key : M str :=
  now <- now_sgt ;; ret (ymd now).

Definition load_state : M pyval :=
  fun w =>
    match state_file w with
    | Content s =>
        match json_loads s with
        | Some v => (Ok v, w)
        | None => (Ok (VDict []), w)
        end
    | Missing | Unreadable => (Ok (VDict []), w)
    end.

Definition save_state (state : pyval) : M unit :=
  fun w => (Ok tt, set_state_file (Content (json_dumps state)) w).

(** Line 105.  The attribute [get] is looked up before the argument
    [today_key()] is evaluated. *)
Definition get_today_counts (state : pyval) : M Z :=
  days <- lift (py_get state (u "days") (VDict [])) ;;
  if is_dict days then
    key <- today_key ;;
    day <- lift (py_get days key (VDict [])) ;;
    tries <- lift (py_get day (u "tries") (VInt 0)) ;;
    lift (py_int tries)
  else raise AttributeError.

(** Lines 108-112.  [days] and [d] alias the dicts inside [state], so the
    assignment to [d] changes [state]; the result is the state after it. *)
Definition bump_today_count (state : pyval) (inc : Z) : M pyval :=
  match state with
  | VDict sd =>
      let days :=
        match dict_get (u "days") sd with
        | Some x => x
        | None => VDict []
        end in
      match days with
      | VDict dd =>
          key <- today_key ;;
          let d :=
            match dict_get key dd with
            | Some x => x
            | None => VDict [(u "tries", VInt 0)]
            end in
          tries <- lift (py_get d (u "tries") (VInt 0)) ;;
          n <- lift (py_int tries) ;;
          match d with
          | VDict de =>
              let d' := VDict (dict_set (u "tries") (VInt (n + inc)) de) in
              let state' :=
                VDict (dict_set (u "days") (VDict (dict_set key d' dd)) sd) in
              _ <- save_state state' ;;
              ret state'
          | _ => raise AttributeError
          end
      | _ => raise AttributeError
      end
  | _ => raise AttributeError
  end.

Definition luckydraw_once : M (pyval * pyval * pyval) :=
  fun w =>
    (Ok (draw_outcome (draw_reply env (draws_sent w))), count_draw w).

Definition topup_once (key : pyval) : M (bool * pyval * pyval) :=
  fun w =>
    (topup_outcome (topup_reply env (length (topups_sent w)) key),
     log_topup key w).

Definition is_empty (s : str) : bool :=
  match s with [] => true | _ => false end.

Definition is_nil {A : Type} (l : list A) : bool :=
  match l with [] => true | _ => false end.

Definition push_payload (title content : str) : pyval :=
  VDict ([(u "token", VStr (PUSH_TOKEN cfg));
          (u "title", VStr title);
          (u "content", VStr content);
          (u "template", VStr (PUSH_TEMPLATE cfg))]
         ++ (if is_empty (PUSH_CHANNEL cfg) then []
             else [(u "channel", VStr (PUSH_CHANNEL cfg))])).

(** [send_push]: every call is recorded in [push_calls], every request to
    the webhook in [push_posts]. *)
Definition send_push (title content : str) : M (bool * str) :=
  fun w =>
    let w1 := log_push_call title content w in
    if is_empty (PUSH_URL cfg) || is_empty (PUSH_TOKEN cfg) then
      (Ok (false, u "PUSH_URL or PUSH_TOKEN is empty; skip push."), w1)
    else
      let payload := push_payload title content in
      let w' := log_push_post payload w1 in
      match push_reply env (length (push_posts w)) payload with
      | Answered r =>
          (Ok ((200 <=? status_code r)%Z && (status_code r <? 300)%Z,
               u "HTTP " ++ str_of_Z (status_code r) ++ u ": "
               ++ firstn 200 (text r)), w')
      | Failed e => (Ok (false, e), w')
      end.

Definition write_report_json (s : str) : M unit :=
  fun w => (Ok tt, set_report_json s w).

Definition write_report_html (s : str) : M unit :=
  fun w => (Ok tt, set_report_html s w).

(** ** The run *)

Definition no_code_text : str := u "未获取到兑换码".

(** One turn of the loop, lines 415-448: the state after it and the
    record it appends. *)
Definition attempt_once (state : pyval) : M (pyval * attempt) :=
  ' (code, draw_msg, parsed) <- luckydraw_once ;;
  state' <- bump_today_count state 1 ;;
  mask <- lift (if truthy code then mask_code code else Ok []) ;;
  if truthy code then
    _ <- lift (mask_code code) ;;
    ' (ok, msg, amount) <- topup_once code ;;
    ret (state',
         {| draw_msg := py_or draw_msg (VStr []);
            code := py_or code (VStr []);
            code_mask := mask;
            topup_ok := ok;
            topup_amount := match amount with VNone => VStr [] | _ => amount end;
            topup_msg := py_or msg (VStr []) |})
  else
    let reason := if truthy draw_msg then draw_msg else VStr no_code_text in
    ret (state',
         {| draw_msg := py_or draw_msg (VStr []);
            code := py_or code (VStr []);
            code_mask := mask;
            topup_ok := false;
            topup_amount := VStr [];
            topup_msg :=
              if truthy draw_msg
              then VStr (no_code_text ++ u "（" ++ py_str reason ++ u "）")
              else reason |}).

(** The loop [for i in range(need)]. *)
Fixpoint attempts (n : nat) (state : pyval) (results : list attempt)
  : M (pyval * list attempt) :=
  match n with
  | O => ret (state, results)
  | S n' =>
      ' (state', record) <- attempt_once state ;;
      attempts n' state' (results ++ [record])
  end.

Definition missing_variables : list str :=
  (if is_empty (LUCKYDRAW_COOKIE cfg) then [u "LUCKYDRAW_COOKIE"] else [])
  ++ (if is_empty (LUCKYDRAW_NEXT_ACTION cfg) then [u "LUCKYDRAW_NEXT_ACTION"] else [])
  ++ (if is_empty (LUCKYDRAW_NEXT_ROUTER_STATE cfg)
      then [u "LUCKYDRAW_NEXT_ROUTER_STATE"] else [])
  ++ (if is_empty (TOPUP_COOKIE cfg) then [u "TOPUP_COOKIE"] else [])
  ++ (if is_empty (TOPUP_NEW_API_USER cfg) then [u "TOPUP_NEW_API_USER"] else []).

Definition target : Z := Z.min (MAX_TIMES cfg) 5.

Definition need_of (already : Z) : Z := Z.max 0 (target - already).

Definition summary_of (today_str : str) (total : Z) (results : list attempt)
    (tried : Z) : pyval :=
  VDict [(u "date", VStr today_str);
         (u "timezone", VStr TIMEZONE);
         (u "total_amount", VInt total);
         (u "items", VList (map attempt_dict results));
         (u "today_tried", VInt tried);
         (u "today_target", VInt target)].

(** Line 467. *)
Definition has_success (results : list attempt) : bool :=
  existsb (fun r => truthy (py_or (VBool (topup_ok r)) (code r))) results.

Definition push_line (i : nat) (r : attempt) : str :=
  u "- 第" ++ str_of_Z (Z.of_nat i + 1) ++ u "次："
  ++ (if topup_ok r then mark_ok else mark_ko) ++ u " " ++ code_mask r
  ++ u " 额:" ++ py_str (topup_amount r) ++ u "  "
  ++ py_str (py_or (topup_msg r) (draw_msg r)).

Fixpoint push_lines (i : nat) (results : list attempt) : list str :=
  match results with
  | [] => []
  | r :: rest => push_line i r :: push_lines (S i) rest
  end.

Definition push_title (today_str : str) : str :=
  u "签到兑换完成（" ++ today_str ++ u "）".

Definition push_content (total : Z) (results : list attempt) : str :=
  match results with
  | [] => u "今日已达 5 次目标或无新增尝试。"
  | _ =>
      u "**总额**：`" ++ str_of_Z total ++ u "`" ++ [c_newline; c_newline]
      ++ join [c_newline] (push_lines 0 results)
  end.

(** Lines 450-480: what follows the loop. *)
Definition finish (state : pyval) (results : list attempt) : M unit :=
  total <- lift (total_amount results) ;;
  now <- now_sgt ;;
  let today_str := ymd now ++ u " " ++ hms now in
  tried <- get_today_counts state ;;
  _ <- write_report_json (json_dumps (summary_of today_str total results tried)) ;;
  page <- lift (render_html today_str results total) ;;
  _ <- write_report_html page ;;
  if is_nil results || negb (has_success results) then ret tt
  else
    _ <- send_push (push_title today_str) (push_content total results) ;;
    ret tt.

Definition main : M unit :=
  state <- load_state ;;
  match missing_variables with
  | _ :: _ =>
      raise (SystemExit (u "缺少必要环境变量：" ++ join (u ", ") missing_variables))
  | [] =>
      already <- get_today_counts state ;;
      ' (state', results) <- attempts (Z.to_nat (need_of already)) state [] ;;
      finish state' results
  end.

End Run.

(** ** Definitions used to state the properties *)

Definition code_of (o : pyval * pyval * pyval) : pyval := fst (fst o).
Definition message_of (o : pyval * pyval * pyval) : pyval := snd (fst o).
Definition parsed_of (o : pyval * pyval * pyval) : pyval := snd o.

(** The field the specification describes: the key, a colon and the hex
    string between quotes. *)
Definition code_field (h : str) : str :=
  key_redemptionCode ++ [58%N] ++ [c_dquote] ++ h ++ [c_dquote].

(** What one record adds to the total, as the specification words it: its
    amount when that is an integer (for Python a boolean is one: [True] is
    1, [False] is 0), nothing otherwise. *)
Definition integral_amount (v : pyval) : option Z :=
  match v with
  | VInt z => Some z
  | VBool b => Some (if b then 1 else 0)%Z
  | _ => None
  end.

Definition contribution (r : attempt) : Z :=
  match integral_amount (topup_amount r) with
  | Some z => z
  | None => 0%Z
  end.

Definition sum_Z (l : list Z) : Z := fold_right Z.add 0%Z l.

(** The amounts that are present and integral, in the order of the
    records. *)
Definition integral_amounts (results : list attempt) : list Z :=
  flat_map (fun r => match integral_amount (topup_amount r) with
                     | Some z => [z]
                     | None => []
                     end) results.

(** A runtime for the closed examples; none of them reaches a float, an
    [int(str)], a [repr], an entity or a decoding error. *)
Definition sample_runtime : runtime := {|
  float_is_zero := fun _ => false;
  float_trunc := fun _ => None;
  float_str := fun x => x;
  float_json := fun x => x;
  int_of_str := fun _ => None;
  repr_str := fun s => s;
  charref_sub := fun s => s;
  json_error_text := fun _ => u "Expecting value"
|}.

Definition answered (status : Z) (body : str) : http :=
  Answered {| status_code := status; text := body; content_utf8 := body |}.

(** The draw body of the end-to-end scenario. *)
Definition scenario_body : str :=
  q "garbage{'message':'try later'}moregarbage{'redemptionCode':'0123456789abcdef','message':'win'}".

Definition scenario_code : str := u "0123456789abcdef".

Definition scenario_parsed : pyval :=
  VDict [(u "redemptionCode", VStr scenario_code); (u "message", VStr (u "win"))].

(** A malformed text before a code field: a field that is cut before its
    closing quote. *)
Definition code_a : str := u "aaaaaaaaaaaaaaaa".
Definition code_b : str := u "bbbbbbbbbbbbbbbb".
Definition cut_field (h : str) : str :=
  key_redemptionCode ++ [58%N] ++ [c_dquote] ++ h.

(** A challenge page whose marker comes after the first 200 characters. *)
Definition late_marker_body : str := repeat 32%N 200 ++ challenge_marker.

(** Dict keys that are pairwise different. *)
Fixpoint distinct (l : list str) : bool :=
  match l with
  | [] => true
  | k :: r => negb (existsb (str_eqb k) r) && distinct r
  end.

(** A value [json.dumps] writes and [json.loads] reads back: no float
    (its text is left to the runtime) and no repeated key. *)
Fixpoint storable (v : pyval) : bool :=
  match v with
  | VFloat _ => false
  | VList l => forallb storable l
  | VDict d => distinct (map fst d) && forallb (fun kv => storable (snd kv)) d
  | _ => true
  end.

(** A value without float. *)
Fixpoint no_float (v : pyval) : bool :=
  match v with
  | VFloat _ => false
  | VList l => forallb no_float l
  | VDict d => forallb (fun kv => no_float (snd kv)) d
  | _ => true
  end.

(** What follows a value in the text [json.dumps] writes: nothing, a
    comma or a newline. *)
Definition delim (rest : str) : Prop :=
  match rest with
  | [] => True
  | c :: _ => c = 44%N \/ c = 10%N
  end.

(** A text [span] does not enter. *)
Definition stops (f : N -> bool) (rest : str) : Prop :=
  match rest with
  | [] => True
  | c :: _ => f c = false
  end.

(** A scanner that succeeds has read something. *)
Definition consumes (fuel : nat) : Prop :=
  (forall t v r, parse_value fuel t = POk v r -> length r < length t) /\
  (forall t l r, parse_items fuel t = POk l r -> length r < length t) /\
  (forall t l r, parse_members fuel t = POk l r -> length r < length t).

(** Twice the length of the text is fuel enough. *)
Definition fuel_enough (fuel : nat) : Prop :=
  (forall t, 2 * length t + 1 <= fuel -> parse_value fuel t <> PFuel) /\
  (forall t, 2 * length t + 2 <= fuel -> parse_items fuel t <> PFuel) /\
  (forall t, 2 * length t + 1 <= fuel -> parse_members fuel t <> PFuel).

(** What the scanners return is storable as soon as it holds no float. *)
Definition parsed_ok (fuel : nat) : Prop :=
  (forall t v r, parse_value fuel t = POk v r ->
                 no_float v = true -> storable v = true) /\
  (forall t l r, parse_items fuel t = POk l r ->
                 Forall (fun v => no_float v = true -> storable v = true) l) /\
  (forall t l r, parse_members fuel t = POk l r ->
                 Forall (fun kv => no_float (snd kv) = true -> storable (snd kv) = true) l).

Section Observations.
Context {rt : runtime}.

(** The daily counter a state holds for a given day: what
    [get_today_counts] computes once the clock has given the day. *)
Definition count_on (day : str) (state : pyval) : result Z :=
  match py_get state (u "days") (VDict []) with
  | Err e => Err e
  | Ok days =>
      match py_get days day (VDict []) with
      | Err e => Err e
      | Ok d =>
          match py_get d (u "tries") (VInt 0) with
          | Err e => Err e
          | Ok t => py_int t
          end
      end
  end.

(** The state [bump_today_count] builds and saves on a given day. *)
Definition bump_on (day : str) (state : pyval) (inc : Z) : result pyval :=
  match state with
  | VDict sd =>
      match (match dict_get (u "days") sd with Some x => x | None => VDict [] end) with
      | VDict dd =>
          match (match dict_get day dd with
                 | Some x => x
                 | None => VDict [(u "tries", VInt 0)]
                 end) with
          | VDict de =>
              match py_int (match dict_get (u "tries") de with
                            | Some t => t
                            | None => VInt 0
                            end) with
              | Ok n =>
                  Ok (VDict (dict_set (u "days")
                               (VDict (dict_set day
                                         (VDict (dict_set (u "tries") (VInt (n + inc)) de))
                                         dd))
                               sd))
              | Err e => Err e
              end
          | _ => Err AttributeError
          end
      | _ => Err AttributeError
      end
  | _ => Err AttributeError
  end.

Definition is_ok {A : Type} (r : result A) : bool :=
  match r with Ok _ => true | Err _ => false end.

(** A draw answer from which [main] builds its record without raising:
    the code can be masked and the message escaped. *)
Definition polite_draw (h : http) : bool :=
  let '(c, m, _) := draw_outcome h in
  is_ok (mask_code c) && is_ok (html_escape (py_or m (VStr []))).

(** A redemption answer that [topup_once] and the report take without
    raising: JSON bodies are objects and the message can be escaped. *)
Definition polite_topup (h : http) : bool :=
  match topup_outcome h with
  | Ok (_, m, _) => is_ok (html_escape (py_or m (VStr [])))
  | Err _ => false
  end.

Definition polite (env : environment) : Prop :=
  (forall n, polite_draw (draw_reply env n) = true) /\
  (forall n k, polite_topup (topup_reply env n k) = true).

(** The counter of the state can be read on every day the clock shows. *)
Definition readable (env : environment) (state : pyval) : Prop :=
  forall n, exists z, count_on (ymd (clock env n)) state = Ok z.

(** The state [load_state] returns for a state file. *)
Definition loaded (f : file) : pyval :=
  match f with
  | Content s => match json_loads s with Some v => v | None => VDict [] end
  | Missing | Unreadable => VDict []
  end.

(** The day and the time stamp the next reading of the clock gives. *)
Definition day_now (env : environment) (w : world) : str :=
  ymd (clock env (clock_reads w)).

Definition stamp_at (env : environment) (n : nat) : str :=
  ymd (clock env n) ++ u " " ++ hms (clock env n).

(** [k] increments in a row, the first one on the day of clock reading
    [t], the next on that of reading [t + 1], and so on. *)
Fixpoint bumps (env : environment) (t k : nat) (state : pyval) : result pyval :=
  match k with
  | O => Ok state
  | S k' =>
      match bump_on (ymd (clock env t)) state 1 with
      | Ok state' => bumps env (S t) k' state'
      | Err e => Err e
      end
  end.

(** A record the report can render. *)
Definition printable (r : attempt) : bool :=
  is_ok (html_escape (draw_msg r)) && is_ok (html_escape (topup_msg r)).

(** The run up to the end of the loop: the state and the records it hands
    to the reporting part. *)
Definition run_loop (cfg : config) (env : environment) (f : file)
  : result (pyval * list attempt) * world :=
  bind load_state
    (fun state =>
       bind (get_today_counts env state)
         (fun already => attempts env (Z.to_nat (need_of cfg already)) state []))
    (initial_world f).

(** The calls of the notifier a finished run has made. *)
Definition notified (today : str) (total : Z) (res : list attempt)
  : list (str * str) :=
  if is_nil res || negb (has_success res) then []
  else [(push_title today, push_content total res)].

(** The text of the elements of a list and of the members of a dict, as
    [dumps] lays them out at nesting level [k]. *)
Definition items_text (k : nat) (l : list pyval) : str :=
  join (u "," ++ newline_indent k) (map (dumps k) l).

Definition member_text (k : nat) (kv : str * pyval) : str :=
  json_string (fst kv) ++ u ": " ++ dumps k (snd kv).

Definition members_text (k : nat) (d : list (str * pyval)) : str :=
  join (u "," ++ newline_indent k) (map (member_text k) d).

(** [json.loads] undoes [json.dumps] on the texts that fit the fuel. *)
Definition roundtrip_at (fuel : nat) : Prop :=
  (forall v lvl rest,
     storable v = true -> delim rest -> length (dumps lvl v) <= fuel ->
     parse_value fuel (dumps lvl v ++ rest) = POk v rest) /\
  (forall l k k' rest,
     l <> [] -> forallb storable l = true -> length (items_text k l) < fuel ->
     parse_items fuel (items_text k l ++ newline_indent k' ++ 93%N :: rest)
     = POk l rest) /\
  (forall d k k' rest,
     d <> [] -> forallb (fun kv => storable (snd kv)) d = true ->
     length (members_text k d) < fuel ->
     parse_members fuel (members_text k d ++ newline_indent k' ++ 125%N :: rest)
     = POk d rest).

End Observations.

(** Worlds with the same reports and the same calls of the notifier. *)
Definition quiet (w w' : world) : Prop :=
  push_calls w' = push_calls w /\ push_posts w' = push_posts w /\
  report_json w' = report_json w /\ report_html w' = report_html w.

(** Worlds that differ at most in the clock. *)
Definition inert (w w' : world) : Prop :=
  state_file w' = state_file w /\ draws_sent w' = draws_sent w /\ quiet w w'.



Definition sample_config : config := {|
  LUCKYDRAW_COOKIE := u "session=abc";
  LUCKYDRAW_NEXT_ACTION := u "action";
  LUCKYDRAW_NEXT_ROUTER_STATE := u "tree";
  TOPUP_COOKIE := u "session=def";
  TOPUP_NEW_API_USER := u "42";
  MAX_TIMES := 5;
  PUSH_URL := u "https://www.pushplus.plus/api/send";
  PUSH_TOKEN := u "token";
  PUSH_CHANNEL := [];
  PUSH_TEMPLATE := u "markdown"
|}.

Definition config_max7 : config := {|
  LUCKYDRAW_COOKIE := u "session=abc";
  LUCKYDRAW_NEXT_ACTION := u "action";
  LUCKYDRAW_NEXT_ROUTER_STATE := u "tree";
  TOPUP_COOKIE := u "session=def";
  TOPUP_NEW_API_USER := u "42";
  MAX_TIMES := 7;
  PUSH_URL := u "https://www.pushplus.plus/api/send";
  PUSH_TOKEN := u "token";
  PUSH_CHANNEL := [];
  PUSH_TEMPLATE := u "markdown"
|}.

Definition scenario_clock : nat -> datetime :=
  fun _ => {| ymd := u "2025-11-04"; hms := u "08:00:00" |}.

(** The end-to-end scenario: the first draw is answered 401, the next ones
    yield a code, every redemption succeeds with amount 100. *)
Definition scenario_env : environment := {|
  draw_reply := fun n =>
    match n with
    | O => answered 401 []
    | S _ => answered 200 (q "0:{'redemptionCode':'abcdef1234567890'}")
    end;
  topup_reply := fun _ _ => answered 200 (q "{'success':true,'data':100,'message':'ok'}");
  push_reply := fun _ _ => answered 200 (u "ok");
  clock := scenario_clock
|}.

(** Every draw is answered 401. *)
Definition env_401 : environment := {|
  draw_reply := fun _ => answered 401 [];
  topup_reply := fun _ _ => answered 200 (q "{'success':true,'data':100,'message':'ok'}");
  push_reply := fun _ _ => answered 200 (u "ok");
  clock := scenario_clock
|}.

(** Three attempts already made today. *)
Definition scenario_file : file :=
  Content (q "{'days': {'2025-11-04': {'tries': 3}}}").

(** The two records of the scenario and one whose amount is a string of
    digits. *)
Definition sample_records : list attempt :=
  [ {| draw_msg := VStr msg_401; code := VStr []; code_mask := [];
       topup_ok := false; topup_amount := VStr []; topup_msg := VStr msg_401 |};
    {| draw_msg := VStr (u "HTTP 200"); code := VStr (u "abcdef1234567890");
       code_mask := u "abcd****7890"; topup_ok := true;
       topup_amount := VInt 100; topup_msg := VStr (u "ok") |};
    {| draw_msg := VStr (u "HTTP 200"); code := VStr (u "abcdef1234567891");
       code_mask := u "abcd****7891"; topup_ok := true;
       topup_amount := VStr (u "250"); topup_msg := VStr (u "ok") |} ].

(** A state file that is not JSON. *)
Definition garbled_file : file := Content (u "{not json").

Definition resp_401 : response :=
  {| status_code := 401; text := []; content_utf8 := [] |}.
Definition resp_403 : response :=
  {| status_code := 403; text := u "<title>Just a moment...</title>";
     content_utf8 := u "<title>Just a moment...</title>" |}.
Definition resp_502 : response :=
  {| status_code := 502; text := []; content_utf8 := [] |}.
Definition resp_200 : response :=
  {| status_code := 200; text := scenario_body; content_utf8 := scenario_body |}.

(** * Properties *)

(** ** Strings and scanners *)

Lemma strip_prefix_app (p r : str) : strip_prefix p (p ++ r) = Some r.
Proof.
  induction p as [|c p IH]; simpl; [reflexivity|].
  now rewrite N.eqb_refl.
Qed.

Lemma span_app_stop (f : N -> bool) (a : str) (c : N) (r : str) :
  forallb f a = true -> f c = false -> span f (a ++ c :: r) = (a, c :: r).
Proof.
  intros Ha Hc. induction a as [|x a IH]; simpl in *.
  - now rewrite Hc.
  - apply andb_prop in Ha as [Hx Ha]. rewrite Hx, (IH Ha). reflexivity.
Qed.

Lemma span_stop_head (f : N -> bool) (c : N) (r : str) :
  f c = false -> span f (c :: r) = ([], c :: r).
Proof. intros H. simpl. now rewrite H. Qed.

Lemma re_search_here {A : Type} (m : str -> option A) (t : str) (a : A) :
  m t = Some a -> re_search m t = Some a.
Proof. intros H. destruct t; simpl; now rewrite H. Qed.

Lemma re_search_skip {A : Type} (m : str -> option A) (pre t : str) :
  (forall i, i < length pre -> m (skipn i (pre ++ t)) = None) ->
  re_search m (pre ++ t) = re_search m t.
Proof.
  induction pre as [|c pre IH]; intros H; [reflexivity|].
  pose proof (H 0 ltac:(simpl; lia)) as H0. simpl in H0.
  simpl. rewrite H0.
  apply IH. intros i Hi. apply (H (S i)). simpl. lia.
Qed.

Lemma match_code_at_field (h post : str) :
  forallb is_hex h = true -> 16 <= length h ->
  match_code_at (code_field h ++ post) = Some h.
Proof.
  intros Hh Hl. unfold match_code_at, code_field.
  rewrite <- app_assoc, strip_prefix_app.
  unfold skip_spaces. cbn -[Nat.leb span].
  rewrite span_stop_head by reflexivity. cbn -[Nat.leb span].
  rewrite span_stop_head by reflexivity. cbn -[Nat.leb span].
  rewrite <- app_assoc. cbn [app].
  rewrite (span_app_stop is_hex h c_dquote post Hh eq_refl).
  apply Nat.leb_le in Hl. rewrite Hl. reflexivity.
Qed.

Lemma str_eqb_eq (a b : str) : str_eqb a b = true <-> a = b.
Proof.
  revert b. induction a as [|x a IH]; intros [|y b]; simpl; split; intros H;
    try reflexivity; try discriminate.
  - apply andb_prop in H as [Hx Hr]. apply N.eqb_eq in Hx. apply IH in Hr. congruence.
  - injection H as -> ->. rewrite N.eqb_refl. now apply IH.
Qed.

Lemma str_eqb_refl (a : str) : str_eqb a a = true.
Proof. now apply str_eqb_eq. Qed.

Lemma str_eqb_neq (a b : str) : a <> b -> str_eqb a b = false.
Proof.
  intros H. destruct (str_eqb a b) eqn:E; [|reflexivity].
  apply str_eqb_eq in E. contradiction.
Qed.

Lemma dict_get_set_same (k : str) (v : pyval) (d : dict) :
  dict_get k (dict_set k v d) = Some v.
Proof.
  induction d as [|[k' v'] d IH]; simpl.
  - now rewrite str_eqb_refl.
  - destruct (str_eqb k k') eqn:E; simpl; rewrite E; [reflexivity|exact IH].
Qed.

Lemma dict_get_set_other (k k' : str) (v : pyval) (d : dict) :
  k' <> k -> dict_get k' (dict_set k v d) = dict_get k' d.
Proof.
  intros Hne. induction d as [|[k0 v0] d IH]; simpl.
  - now rewrite (str_eqb_neq Hne).
  - destruct (str_eqb k k0) eqn:E; simpl.
    + apply str_eqb_eq in E. subst k0. now rewrite (str_eqb_neq Hne).
    + now rewrite IH.
Qed.


Section Properties.
Context {rt : runtime}.

(** ** C7: masking *)

Lemma firstn_last_n_split {A : Type} (l : list A) :
  8 <= length l ->
  exists mid, l = firstn 4 l ++ mid ++ last_n 4 l /\ length mid = length l - 8.
Proof.
  intros H. exists (firstn (length l - 8) (skipn 4 l)). split.
  - unfold last_n.
    rewrite <- (firstn_skipn 4 l) at 1. f_equal.
    rewrite <- (firstn_skipn (length l - 8) (skipn 4 l)) at 1. f_equal.
    rewrite skipn_skipn. f_equal. lia.
  - rewrite length_firstn, length_skipn. lia.
Qed.

(** C7. A code shorter than 8 characters (the empty one included) is
    rendered as the placeholder; a code of 8 characters or more is rendered
    as its first 4 characters, the fixed mask and its last 4 characters, the
    mask standing for everything between them. *)
Theorem mask_code_spec (c : str) :
  (length c < 8 -> mask_code (VStr c) = Ok (u "****")) /\
  (8 <= length c ->
   exists mid,
     c = firstn 4 c ++ mid ++ last_n 4 c /\
     length (firstn 4 c) = 4 /\ length (last_n 4 c) = 4 /\
     mask_code (VStr c) = Ok (firstn 4 c ++ u "****" ++ last_n 4 c)).
Proof.
  split; intros H.
  - unfold mask_code. destruct c as [|x c]; [reflexivity|].
    cbn [truthy negb]. unfold mask_str.
    apply Nat.ltb_lt in H. now rewrite H.
  - destruct (firstn_last_n_split c H) as [mid [Hsplit Hmid]].
    exists mid. repeat split; [exact Hsplit| | |].
    + rewrite length_firstn. lia.
    + unfold last_n. rewrite length_skipn. lia.
    + unfold mask_code. destruct c as [|x c]; [simpl in H; lia|].
      cbn [truthy negb]. unfold mask_str.
      assert (Hb : (length (x :: c) <? 8) = false) by (apply Nat.ltb_ge; lia).
      now rewrite Hb.
Qed.

(** ** C4, C1: the response interpreter *)

Lemma interpret_code_found (status : Z) (t h : str) :
  re_search match_code_at t = Some h -> h <> [] ->
  code_of (interpret status t) = VStr h.
Proof.
  intros H Hne. unfold interpret, code_of. rewrite H.
  destruct h as [|c h]; [contradiction|]. reflexivity.
Qed.

(** C4 (amended). When the payload contains a field
    ["redemptionCode":"h"] with [h] a hex string of 16 characters or more,
    and the code pattern matches nowhere before that field, the interpreter
    returns exactly [h], whatever the text around the field is: the code
    returned is that of the leftmost match. *)
Theorem interpret_extracts_leftmost_code (status : Z) (pre h post : str) :
  forallb is_hex h = true ->
  16 <= length h ->
  (forall i, i < length pre ->
     match_code_at (skipn i (pre ++ code_field h ++ post)) = None) ->
  code_of (interpret status (pre ++ code_field h ++ post)) = VStr h.
Proof.
  intros Hh Hl Hpre. apply interpret_code_found.
  - rewrite re_search_skip by exact Hpre.
    apply re_search_here, match_code_at_field; assumption.
  - destruct h; [simpl in Hl; lia | discriminate].
Qed.

Lemma interpret_scenario (status : Z) :
  interpret status scenario_body
  = (VStr scenario_code, VStr (u "try later"), scenario_parsed).
Proof. vm_compute. reflexivity. Qed.


(** ** C9: the status policy of the draw client *)

(** C9 (amended). 401 gives the unauthenticated outcome and 403 the
    forbidden one, both without a code; the message of a 403 is the
    challenge one exactly when the marker occurs in the first 200
    characters of the body, and the expired-credentials one otherwise; a
    status of 500 or more gives the server-error outcome without a code;
    every other status hands the decoded body to the interpreter. *)
Theorem draw_outcome_status_policy (r : response) :
  (status_code r = 401%Z ->
   draw_outcome (Answered r)
   = (VNone, VStr msg_401, VDict [(u "status", VInt 401)])) /\
  (status_code r = 403%Z ->
   draw_outcome (Answered r)
   = (VNone,
      VStr (if contains challenge_marker (firstn 200 (text r))
            then msg_403_challenge else msg_403_expired),
      VDict [(u "status", VInt 403);
             (u "preview", VStr (firstn 200 (text r)))])) /\
  ((500 <= status_code r)%Z ->
   draw_outcome (Answered r)
   = (VNone,
      VStr (u "抽奖接口服务器错误：HTTP " ++ str_of_Z (status_code r)),
      VDict [(u "status", VInt (status_code r))])) /\
  (status_code r <> 401%Z -> status_code r <> 403%Z -> (status_code r < 500)%Z ->
   draw_outcome (Answered r) = interpret (status_code r) (content_utf8 r)) /\
  msg_403_challenge <> msg_403_expired.
Proof.
  unfold draw_outcome. repeat split.
  - intros H. rewrite H. reflexivity.
  - intros H. rewrite H. cbn [Z.eqb Pos.eqb]. reflexivity.
  - intros H.
    assert (H1 : (status_code r =? 401)%Z = false) by (apply Z.eqb_neq; lia).
    assert (H3 : (status_code r =? 403)%Z = false) by (apply Z.eqb_neq; lia).
    apply Z.leb_le in H. rewrite H1, H3, H. reflexivity.
  - intros H1 H3 H5.
    apply Z.eqb_neq in H1, H3. apply Z.leb_gt in H5.
    rewrite H1, H3, H5. reflexivity.
  - vm_compute. discriminate.
Qed.

(** ** C6: the total *)

Lemma py_int_integral (v : pyval) (z : Z) :
  integral_amount v = Some z -> py_int v = Ok z.
Proof. destruct v; simpl; congruence. Qed.

Lemma isinstance_int_integral (v : pyval) :
  isinstance_int v = match integral_amount v with Some _ => true | None => false end.
Proof. destruct v; reflexivity. Qed.


(** ** The daily counter *)

Ltac dict_steps :=
  repeat (cbv beta iota; rewrite ?dict_get_set_same, ?str_eqb_refl).

Lemma bump_on_count (d : str) (st : pyval) (c : Z) :
  count_on d st = Ok c ->
  exists st', bump_on d st 1 = Ok st' /\ count_on d st' = Ok (c + 1)%Z /\
    forall d', d' <> d -> count_on d' st' = count_on d' st.
Proof.
  unfold count_on, bump_on, py_get.
  destruct st as [| | | | |?|sd]; try discriminate.
  destruct (dict_get (u "days") sd) as [days|] eqn:Ed.
  - destruct days as [| | | | |?|dd]; try discriminate.
    destruct (dict_get d dd) as [e|] eqn:Ee.
    + destruct e as [| | | | |?|de]; try discriminate.
      intros H. rewrite H. eexists. split; [reflexivity|].
      dict_steps. split; [reflexivity|].
      intros d' Hd. rewrite dict_get_set_other by exact Hd. reflexivity.
    + intros H. injection H as <-.
      change (dict_get (u "tries") [(u "tries", VInt 0)]) with (Some (VInt 0)).
      cbn [py_int]. eexists. split; [reflexivity|].
      dict_steps. split; [reflexivity|].
      intros d' Hd. rewrite dict_get_set_other by exact Hd. reflexivity.
  - intros H. change (dict_get d []) with (@None pyval) in *.
    change (dict_get (u "tries") [(u "tries", VInt 0)]) with (Some (VInt 0)) in *.
    cbv beta iota in H. cbn [dict_get py_int] in H. injection H as <-.
    cbn [py_int]. eexists. split; [reflexivity|].
    dict_steps. split; [reflexivity|].
    intros d' Hd. cbn [dict_set]. cbn [dict_get]. rewrite (str_eqb_neq Hd). reflexivity.
Qed.

End Properties.

(** ** The fuel of [json.loads] *)

Lemma span_length (f : N -> bool) (t : str) :
  length (fst (span f t)) + length (snd (span f t)) = length t.
Proof.
  induction t as [|c t IH]; [reflexivity|].
  cbn [span]. destruct (f c); [|reflexivity].
  destruct (span f t) as [a b]. cbn [fst snd length] in *. lia.
Qed.

Lemma span_rest_length (f : N -> bool) (t a b : str) :
  span f t = (a, b) -> length b <= length t.
Proof. intros H. pose proof (span_length f t) as L. rewrite H in L. cbn in L. lia. Qed.

Lemma json_ws_length (t : str) : length (json_ws t) <= length t.
Proof. unfold json_ws. pose proof (span_length is_json_ws t). lia. Qed.

Lemma cons_res_rest (c : N) (x : option (str * str)) (s r : str) :
  cons_res c x = Some (s, r) -> exists s', x = Some (s', r).
Proof. destruct x as [[s' r']|]; cbn; [|discriminate]. intros H. injection H as _ <-. eauto. Qed.

Lemma scan_string_length (n : nat) :
  forall t s r, length t <= n -> scan_string t = Some (s, r) -> length r < length t.
Proof.
  induction n as [|n IH]; intros t s r Hn H.
  - destruct t; [discriminate|cbn in Hn; lia].
  - destruct t as [|c t1]; [discriminate|]. cbn [scan_string] in H. cbn [length] in *.
    destruct (c =? 34)%N; [injection H as _ <-; lia|].
    destruct (c =? 92)%N.
    + destruct t1 as [|e t2]; [discriminate|]. cbn [length] in *.
      destruct (e =? 117)%N.
      * destruct t2 as [|h1 [|h2 [|h3 [|h4 t3]]]]; try discriminate. cbn [length] in *.
        destruct (hex4 h1 h2 h3 h4) as [cp|]; [|discriminate].
        assert (Hrec : forall x, cons_res x (scan_string t3) = Some (s, r) ->
                                 length r < S (S (S (S (S (S (length t3))))))).
        { intros x Hx. apply cons_res_rest in Hx as [s' Hx].
          apply IH in Hx; lia. }
        destruct t3 as [|b [|e' [|k1 [|k2 [|k3 [|k4 t4]]]]]]; try (now apply Hrec in H).
        destruct (is_high_surrogate cp && (b =? 92)%N && (e' =? 117)%N);
          [|now apply Hrec in H].
        destruct (hex4 k1 k2 k3 k4) as [lo|]; [|discriminate].
        destruct (is_low_surrogate lo); [|now apply Hrec in H].
        apply cons_res_rest in H as [s' H]. apply IH in H; cbn [length] in *; lia.
      * destruct (simple_escape e); [|discriminate].
        apply cons_res_rest in H as [s' H]. apply IH in H; lia.
    + destruct (c <? 32)%N; [discriminate|].
      apply cons_res_rest in H as [s' H]. apply IH in H; lia.
Qed.

Lemma scan_int_part_length (t : str) neg ds r :
  scan_int_part t = Some (neg, ds, r) -> length r < length t.
Proof.
  unfold scan_int_part.
  destruct t as [|c t']; [discriminate|].
  destruct (c =? 45)%N.
  - destruct t' as [|d t'']; [discriminate|].
    destruct (d =? 48)%N; [intros H; injection H as _ _ <-; cbn; lia|].
    destruct (is_digit d); [|discriminate].
    destruct (span is_digit t'') as [a b] eqn:E.
    intros H. injection H as _ _ <-. apply span_rest_length in E. cbn. lia.
  - destruct (c =? 48)%N; [intros H; injection H as _ _ <-; cbn; lia|].
    destruct (is_digit c); [|discriminate].
    destruct (span is_digit t') as [a b] eqn:E.
    intros H. injection H as _ _ <-. apply span_rest_length in E. cbn. lia.
Qed.

Lemma scan_frac_length (t fr r : str) : scan_frac t = (fr, r) -> length r <= length t.
Proof.
  unfold scan_frac. destruct t as [|p [|d t']]; try (intros H; injection H as _ <-; lia).
  destruct ((p =? 46)%N && is_digit d); [|intros H; injection H as _ <-; lia].
  destruct (span is_digit t') as [a b] eqn:E.
  intros H. injection H as _ <-. apply span_rest_length in E. cbn. lia.
Qed.

Lemma scan_exp_length (t ex r : str) : scan_exp t = (ex, r) -> length r <= length t.
Proof.
  unfold scan_exp. destruct t as [|e t']; [intros H; injection H as _ <-; lia|].
  destruct ((e =? 101)%N || (e =? 69)%N); [|intros H; injection H as _ <-; lia].
  destruct t' as [|c t''].
  - cbn. intros H. injection H as _ <-. cbn. lia.
  - destruct ((c =? 45)%N || (c =? 43)%N).
    + destruct (span is_digit t'') as [a b] eqn:E. apply span_rest_length in E.
      destruct a; intros H; injection H as _ <-; cbn; lia.
    + destruct (span is_digit (c :: t'')) as [a b] eqn:E. apply span_rest_length in E.
      destruct a; intros H; injection H as _ <-; cbn in *; lia.
Qed.

Lemma scan_number_length (t r : str) (v : pyval) :
  scan_number t = Some (v, r) -> length r < length t.
Proof.
  unfold scan_number.
  destruct (scan_int_part t) as [[[neg ds] r0]|] eqn:E0; [|discriminate].
  destruct (scan_frac r0) as [fr r1] eqn:E1. destruct (scan_exp r1) as [ex r2] eqn:E2.
  apply scan_int_part_length in E0. apply scan_frac_length in E1.
  apply scan_exp_length in E2.
  destruct fr; destruct ex; intros H; injection H as _ <-; lia.
Qed.

Lemma strip_prefix_length (p t r : str) :
  strip_prefix p t = Some r -> length r + length p = length t.
Proof.
  revert t. induction p as [|c p IH]; intros t; cbn [strip_prefix].
  - intros H. injection H as <-. cbn. lia.
  - destruct t as [|d t]; [discriminate|]. destruct (c =? d)%N; [|discriminate].
    intros H. apply IH in H. cbn. lia.
Qed.

Lemma lit_res_length (lit : str) (v v' : pyval) (t r : str) :
  lit <> [] -> lit_res lit v t = POk v' r -> length r < length t.
Proof.
  unfold lit_res. intros Hne. destruct (strip_prefix lit t) eqn:E; [|discriminate].
  intros H. injection H as _ <-. apply strip_prefix_length in E.
  destruct lit; [contradiction|]. cbn in E. lia.
Qed.

Lemma consumes_all (fuel : nat) : consumes fuel.
Proof.
  induction fuel as [|f [IHv [IHl IHd]]].
  - repeat split; intros; discriminate.
  - split; [|split].
    + intros t v r H. cbn [parse_value] in H.
      destruct t as [|c t']; [discriminate|]. cbn [length].
      destruct (c =? 34)%N.
      { destruct (scan_string t') as [[s r']|] eqn:E; [|discriminate].
        injection H as _ <-. apply (@scan_string_length (length t')) in E; lia. }
      destruct (c =? 123)%N.
      { pose proof (json_ws_length t') as Hw.
        destruct (json_ws t') as [|c1 r1]; [discriminate|]. cbn [length] in Hw.
        destruct (c1 =? 125)%N; [injection H as _ <-; lia|].
        destruct (parse_members f (c1 :: r1)) as [l r2| |] eqn:E; try discriminate.
        injection H as _ <-. apply IHd in E. cbn [length] in E. lia. }
      destruct (c =? 91)%N.
      { pose proof (json_ws_length t') as Hw.
        destruct (json_ws t') as [|c1 r1]; [discriminate|]. cbn [length] in Hw.
        destruct (c1 =? 93)%N; [injection H as _ <-; lia|].
        destruct (parse_items f (c1 :: r1)) as [l r2| |] eqn:E; try discriminate.
        injection H as _ <-. apply IHl in E. cbn [length] in E. lia. }
      destruct (c =? 110)%N; [apply lit_res_length in H; [exact H|discriminate]|].
      destruct (c =? 116)%N; [apply lit_res_length in H; [exact H|discriminate]|].
      destruct (c =? 102)%N; [apply lit_res_length in H; [exact H|discriminate]|].
      destruct (c =? 78)%N; [apply lit_res_length in H; [exact H|discriminate]|].
      destruct (c =? 73)%N; [apply lit_res_length in H; [exact H|discriminate]|].
      destruct (starts_with (u "-Infinity") (c :: t'));
        [apply lit_res_length in H; [exact H|discriminate]|].
      destruct (scan_number (c :: t')) as [[v' r']|] eqn:E; [|discriminate].
      injection H as _ <-. apply scan_number_length in E. exact E.
    + intros t l r H. cbn [parse_items] in H.
      destruct (parse_value f t) as [v r1| |] eqn:E; try discriminate.
      apply IHv in E. pose proof (json_ws_length r1) as Hw.
      destruct (json_ws r1) as [|c r2]; [discriminate|]. cbn [length] in Hw.
      destruct (c =? 93)%N; [injection H as _ <-; lia|].
      destruct (c =? 44)%N; [|discriminate].
      destruct (parse_items f (json_ws r2)) as [l' r3| |] eqn:E2; try discriminate.
      injection H as _ <-. apply IHl in E2. pose proof (json_ws_length r2). lia.
    + intros t l r H. cbn [parse_members] in H.
      destruct t as [|c t']; [discriminate|]. cbn [length].
      destruct (c =? 34)%N; [|discriminate].
      destruct (scan_string t') as [[k r1]|] eqn:Es; [|discriminate].
      apply (@scan_string_length (length t')) in Es; [|lia].
      pose proof (json_ws_length r1) as Hw1.
      destruct (json_ws r1) as [|c1 r2]; [discriminate|]. cbn [length] in Hw1.
      destruct (c1 =? 58)%N; [|discriminate].
      destruct (parse_value f (json_ws r2)) as [v r3| |] eqn:E; try discriminate.
      apply IHv in E. pose proof (json_ws_length r2) as Hw2.
      pose proof (json_ws_length r3) as Hw3.
      destruct (json_ws r3) as [|c2 r4]; [discriminate|]. cbn [length] in Hw3.
      destruct (c2 =? 125)%N; [injection H as _ <-; lia|].
      destruct (c2 =? 44)%N; [|discriminate].
      destruct (parse_members f (json_ws r4)) as [l' r5| |] eqn:E2; try discriminate.
      injection H as _ <-. apply IHd in E2. pose proof (json_ws_length r4). lia.
Qed.

Lemma lit_res_fuel (lit : str) (v : pyval) (t : str) : lit_res lit v t <> PFuel.
Proof. unfold lit_res. destruct (strip_prefix lit t); discriminate. Qed.

Lemma fuel_enough_all (fuel : nat) : fuel_enough fuel.
Proof.
  induction fuel as [|f [IHv [IHl IHd]]].
  - repeat split; intros; lia.
  - split; [|split].
    + intros t Hf. cbn [parse_value].
      destruct t as [|c t']; [discriminate|]. cbn [length] in Hf.
      destruct (c =? 34)%N; [destruct (scan_string t') as [[s r']|]; discriminate|].
      destruct (c =? 123)%N.
      { pose proof (json_ws_length t') as Hw.
        destruct (json_ws t') as [|c1 r1]; [discriminate|].
        destruct (c1 =? 125)%N; [discriminate|].
        assert (Hm : parse_members f (c1 :: r1) <> PFuel) by (apply IHd; lia).
        destruct (parse_members f (c1 :: r1)); [discriminate|discriminate|contradiction]. }
      destruct (c =? 91)%N.
      { pose proof (json_ws_length t') as Hw.
        destruct (json_ws t') as [|c1 r1]; [discriminate|].
        destruct (c1 =? 93)%N; [discriminate|].
        assert (Hm : parse_items f (c1 :: r1) <> PFuel) by (apply IHl; lia).
        destruct (parse_items f (c1 :: r1)); [discriminate|discriminate|contradiction]. }
      destruct (c =? 110)%N; [apply lit_res_fuel|].
      destruct (c =? 116)%N; [apply lit_res_fuel|].
      destruct (c =? 102)%N; [apply lit_res_fuel|].
      destruct (c =? 78)%N; [apply lit_res_fuel|].
      destruct (c =? 73)%N; [apply lit_res_fuel|].
      destruct (starts_with (u "-Infinity") (c :: t')); [apply lit_res_fuel|].
      destruct (scan_number (c :: t')) as [[v' r']|]; discriminate.
    + intros t Hf. cbn [parse_items].
      assert (Hv : parse_value f t <> PFuel) by (apply IHv; lia).
      destruct (parse_value f t) as [v r1| |] eqn:E; [|discriminate|contradiction].
      apply (proj1 (consumes_all f)) in E.
      pose proof (json_ws_length r1) as Hw.
      destruct (json_ws r1) as [|c r2]; [discriminate|]. cbn [length] in Hw.
      destruct (c =? 93)%N; [discriminate|].
      destruct (c =? 44)%N; [|discriminate].
      assert (Hm : parse_items f (json_ws r2) <> PFuel).
      { apply IHl. pose proof (json_ws_length r2). lia. }
      destruct (parse_items f (json_ws r2)); [discriminate|discriminate|contradiction].
    + intros t Hf. cbn [parse_members].
      destruct t as [|c t']; [discriminate|]. cbn [length] in Hf.
      destruct (c =? 34)%N; [|discriminate].
      destruct (scan_string t') as [[k r1]|] eqn:Es; [|discriminate].
      apply (@scan_string_length (length t')) in Es; [|lia].
      pose proof (json_ws_length r1) as Hw1.
      destruct (json_ws r1) as [|c1 r2]; [discriminate|]. cbn [length] in Hw1.
      destruct (c1 =? 58)%N; [|discriminate].
      pose proof (json_ws_length r2) as Hw2.
      assert (Hv : parse_value f (json_ws r2) <> PFuel) by (apply IHv; lia).
      destruct (parse_value f (json_ws r2)) as [v r3| |] eqn:E; [|discriminate|contradiction].
      apply (proj1 (consumes_all f)) in E.
      pose proof (json_ws_length r3) as Hw3.
      destruct (json_ws r3) as [|c2 r4]; [discriminate|]. cbn [length] in Hw3.
      destruct (c2 =? 125)%N; [discriminate|].
      destruct (c2 =? 44)%N; [|discriminate].
      assert (Hm : parse_members f (json_ws r4) <> PFuel).
      { apply IHd. pose proof (json_ws_length r4). lia. }
      destruct (parse_members f (json_ws r4)); [discriminate|discriminate|contradiction].
Qed.

(** [json_loads] gives its scanner fuel enough: [None] always is a
    decoding error. *)
Theorem json_loads_fuel (t : str) :
  parse_value (2 * length t + 1) (json_ws t) <> PFuel.
Proof.
  apply (proj1 (fuel_enough_all _)). pose proof (json_ws_length t). lia.
Qed.

(** ** [json.loads] after [json.dumps] *)

Lemma span_app_stops (f : N -> bool) (a rest : str) :
  forallb f a = true -> stops f rest -> span f (a ++ rest) = (a, rest).
Proof.
  intros Ha Hr. induction a as [|x a IH]; simpl in *.
  - destruct rest as [|c r]; [reflexivity|]. simpl in Hr. simpl. now rewrite Hr.
  - apply andb_prop in Ha as [Hx Ha]. rewrite Hx, (IH Ha). reflexivity.
Qed.

Lemma json_ws_stops (t : str) : stops is_json_ws t -> json_ws t = t.
Proof.
  unfold json_ws. intros H. rewrite <- (app_nil_l t) at 1.
  now rewrite (span_app_stops is_json_ws [] t eq_refl H).
Qed.

Lemma json_ws_app (a t : str) :
  forallb is_json_ws a = true -> json_ws (a ++ t) = json_ws t.
Proof.
  unfold json_ws. intros Ha. induction a as [|x a IH]; [reflexivity|].
  simpl in *. apply andb_prop in Ha as [Hx Ha]. rewrite Hx.
  specialize (IH Ha). destruct (span is_json_ws (a ++ t)). exact IH.
Qed.

Lemma newline_indent_ws (k : nat) : forallb is_json_ws (newline_indent k) = true.
Proof.
  unfold newline_indent. cbn [forallb]. 
  change (is_json_ws c_newline) with true. cbn [andb].
  induction (2 * k) as [|n IH]; [reflexivity|]. cbn [repeat forallb]. exact IH.
Qed.

Lemma json_ws_newline_indent (k : nat) (t : str) :
  json_ws (newline_indent k ++ t) = json_ws t.
Proof. apply json_ws_app, newline_indent_ws. Qed.



Lemma uint_of_chars_chars (d : Decimal.uint) : uint_of_chars (uint_chars d) = d.
Proof. induction d; cbn [uint_chars uint_of_chars]; rewrite IHd || idtac; reflexivity. Qed.

Lemma uint_chars_digits (d : Decimal.uint) : forallb is_digit (uint_chars d) = true.
Proof. induction d; cbn [uint_chars forallb]; try rewrite IHd; reflexivity. Qed.

Lemma unorm_fixed_head (d : Decimal.uint) :
  Decimal.unorm d = d ->
  match d with
  | Decimal.Nil => False
  | Decimal.D0 Decimal.Nil => True
  | Decimal.D0 _ => False
  | _ => True
  end.
Proof.
  destruct d as [|d'| | | | | | | | |]; try (intros _; exact I).
  - cbn. discriminate.
  - destruct d' as [|d''| | | | | | | | |]; [intros _; exact I|..];
      intros H;
      match type of H with Decimal.unorm (Decimal.D0 ?x) = _ =>
        assert (Hn : x <> Decimal.Nil) by discriminate;
        pose proof (DecimalFacts.nb_digits_unorm x Hn) as Hle;
        change (Decimal.unorm (Decimal.D0 x)) with (Decimal.unorm x) in H;
        rewrite H in Hle; cbn in Hle; lia
      end.
Qed.

Lemma to_uint_fixed (n : N) : Decimal.unorm (N.to_uint n) = N.to_uint n.
Proof.
  rewrite <- (DecimalN.Unsigned.to_of (N.to_uint n)).
  now rewrite DecimalN.Unsigned.of_to.
Qed.

Lemma str_of_N_shape (n : N) :
  exists c r, str_of_N n = c :: r /\ is_digit c = true /\
              forallb is_digit r = true /\ (c = 48%N -> r = []).
Proof.
  unfold str_of_N. pose proof (@unorm_fixed_head _ (to_uint_fixed n)) as H.
  pose proof (uint_chars_digits (N.to_uint n)) as Hd.
  destruct (N.to_uint n) as [|d'| | | | | | | | |]; try contradiction;
    cbn [uint_chars] in *; do 2 eexists; (split; [reflexivity|]);
    (split; [reflexivity|]); (split; [exact Hd|]); try discriminate.
  intros _. destruct d'; try contradiction. reflexivity.
Qed.

Lemma digits_value_str_of_N (n : N) : digits_value (str_of_N n) = n.
Proof.
  unfold digits_value, str_of_N. rewrite uint_of_chars_chars.
  apply DecimalN.Unsigned.of_to.
Qed.

Lemma is_digit_range (c : N) : is_digit c = true -> (48 <= c <= 57)%N.
Proof.
  unfold is_digit. intros H. apply andb_prop in H as [H1 H2].
  apply N.leb_le in H1, H2. lia.
Qed.

Lemma eqb_out_of_range (c k : N) : (48 <= c <= 57)%N -> (k < 48 \/ 57 < k)%N -> (c =? k)%N = false.
Proof. intros H1 H2. apply N.eqb_neq. lia. Qed.

Lemma delim_stops_digit (rest : str) : delim rest -> stops is_digit rest.
Proof. destruct rest as [|c r]; [trivial|]. intros [->| ->]; reflexivity. Qed.

Lemma scan_int_part_digits (n : N) (rest : str) :
  stops is_digit rest ->
  scan_int_part (str_of_N n ++ rest) = Some (false, str_of_N n, rest).
Proof.
  intros Hs. destruct (str_of_N_shape n) as [c [r [E [Hc [Hr H0]]]]].
  rewrite E. pose proof (@is_digit_range _ Hc) as Hrange.
  unfold scan_int_part. cbn [app].
  rewrite (@eqb_out_of_range c 45%N Hrange) by lia.
  destruct (c =? 48)%N eqn:E0.
  - apply N.eqb_eq in E0. rewrite (H0 E0). reflexivity.
  - rewrite Hc, (span_app_stops is_digit r rest Hr Hs). reflexivity.
Qed.

Lemma scan_int_part_negative (n : N) (rest : str) :
  stops is_digit rest ->
  scan_int_part (45%N :: str_of_N n ++ rest) = Some (true, str_of_N n, rest).
Proof.
  intros Hs. destruct (str_of_N_shape n) as [c [r [E [Hc [Hr H0]]]]].
  rewrite E. unfold scan_int_part. cbn [app N.eqb Pos.eqb].
  destruct (c =? 48)%N eqn:E0.
  - apply N.eqb_eq in E0. rewrite (H0 E0). reflexivity.
  - rewrite Hc, (span_app_stops is_digit r rest Hr Hs). reflexivity.
Qed.

Lemma scan_frac_delim (rest : str) : delim rest -> scan_frac rest = ([], rest).
Proof.
  destruct rest as [|c [|d r]]; try reflexivity.
  intros [->| ->]; reflexivity.
Qed.

Lemma scan_exp_delim (rest : str) : delim rest -> scan_exp rest = ([], rest).
Proof.
  destruct rest as [|c r]; try reflexivity.
  intros [->| ->]; reflexivity.
Qed.

Lemma scan_number_int (z : Z) (rest : str) :
  delim rest -> scan_number (str_of_Z z ++ rest) = Some (VInt z, rest).
Proof.
  intros Hd. pose proof (@delim_stops_digit _ Hd) as Hs.
  unfold scan_number, str_of_Z. destruct (z <? 0)%Z eqn:Ez.
  - cbn [app]. rewrite (@scan_int_part_negative _ _ Hs).
    rewrite (@scan_frac_delim _ Hd), (@scan_exp_delim _ Hd).
    rewrite digits_value_str_of_N. do 3 f_equal.
    apply Z.ltb_lt in Ez. rewrite N2Z.inj_abs_N. lia.
  - rewrite (@scan_int_part_digits _ _ Hs).
    rewrite (@scan_frac_delim _ Hd), (@scan_exp_delim _ Hd).
    rewrite digits_value_str_of_N. do 3 f_equal.
    apply Z.ltb_ge in Ez. rewrite Z2N.id; lia.
Qed.

Lemma str_of_Z_head (z : Z) :
  exists c r, str_of_Z z = c :: r /\
    ((48 <= c <= 57)%N \/ (c = 45%N /\ exists d r', r = d :: r' /\ (48 <= d <= 57)%N)).
Proof.
  unfold str_of_Z. destruct (z <? 0)%Z.
  - destruct (str_of_N_shape (Z.abs_N z)) as [c [r [E [Hc _]]]].
    do 2 eexists. split; [reflexivity|]. right. split; [reflexivity|].
    exists c, r. split; [exact E|]. now apply is_digit_range.
  - destruct (str_of_N_shape (Z.to_N z)) as [c [r [E [Hc _]]]].
    exists c, r. split; [exact E|]. left. now apply is_digit_range.
Qed.

Lemma parse_value_int (f : nat) (z : Z) (rest : str) :
  delim rest -> parse_value (S f) (str_of_Z z ++ rest) = POk (VInt z) rest.
Proof.
  intros Hd. pose proof (@scan_number_int z _ Hd) as Hn.
  destruct (str_of_Z_head z) as [c [r [E H]]].
  rewrite E in *. cbn [app] in *. cbn [parse_value].
  destruct H as [Hr|[-> [d [r' [-> Hr]]]]].
  - rewrite !(@eqb_out_of_range c _ Hr) by lia.
    unfold starts_with. cbn [u utf8_go strip_prefix]. 
    change (N_of_ascii "-") with 45%N. cbv beta iota zeta.
    cbn [N.ltb N.compare Pos.compare Pos.compare_cont].
    cbn [strip_prefix].
    replace (45 =? c)%N with false by (symmetry; apply N.eqb_neq; lia).
    now rewrite Hn.
  - cbn [N.eqb Pos.eqb]. unfold starts_with.
    replace (strip_prefix (u "-Infinity") (45%N :: (d :: r') ++ rest)) with (@None str).
    + now rewrite Hn.
    + change (u "-Infinity") with (45%N :: u "Infinity").
      cbn [strip_prefix app N.eqb Pos.eqb].
      change (u "Infinity") with (73%N :: u "nfinity").
      cbn [strip_prefix].
      replace (73 =? d)%N with false by (symmetry; apply N.eqb_neq; lia).
      reflexivity.
Qed.



Lemma hex4_small (c : N) :
  (c < 32)%N -> hex4 48 48 (hex_digit (c / 16)) (hex_digit (c mod 16)) = Some c.
Proof.
  intros H. rewrite <- (N2Nat.id c). 
  assert (Hn : N.to_nat c < 32) by lia.
  generalize dependent (N.to_nat c). intros n Hn.
  do 32 (destruct n as [|n]; [vm_compute; reflexivity|]). lia.
Qed.

Lemma scan_string_char (c : N) (t : str) :
  scan_string (json_escape_char c ++ t) = cons_res c (scan_string t).
Proof.
  unfold json_escape_char.
  destruct (c =? 92)%N eqn:E92; [apply N.eqb_eq in E92; subst; reflexivity|].
  destruct (c =? 34)%N eqn:E34; [apply N.eqb_eq in E34; subst; reflexivity|].
  destruct (c =? 8)%N eqn:E8; [apply N.eqb_eq in E8; subst; reflexivity|].
  destruct (c =? 12)%N eqn:E12; [apply N.eqb_eq in E12; subst; reflexivity|].
  destruct (c =? 10)%N eqn:E10; [apply N.eqb_eq in E10; subst; reflexivity|].
  destruct (c =? 13)%N eqn:E13; [apply N.eqb_eq in E13; subst; reflexivity|].
  destruct (c =? 9)%N eqn:E9; [apply N.eqb_eq in E9; subst; reflexivity|].
  destruct (c <? 32)%N eqn:E32.
  - apply N.ltb_lt in E32.
    cbn [app scan_string N.eqb Pos.eqb].
    rewrite (hex4_small E32).
    assert (Hh : is_high_surrogate c = false).
    { unfold is_high_surrogate. apply andb_false_intro1. apply N.leb_gt. lia. }
    rewrite Hh. cbn [andb].
    destruct t as [|b [|e' [|k1 [|k2 [|k3 [|k4 t4]]]]]]; reflexivity.
  - cbn [app scan_string]. now rewrite E34, E92, E32.
Qed.

Lemma scan_string_escaped (s rest : str) :
  scan_string (flat_map json_escape_char s ++ c_dquote :: rest) = Some (s, rest).
Proof.
  induction s as [|c s IH]; [reflexivity|].
  cbn [flat_map]. rewrite <- app_assoc, scan_string_char, IH. reflexivity.
Qed.

Section Roundtrip.
Context {rt : runtime}.

Lemma dumps_list_cons (lvl : nat) (x : pyval) (l : list pyval) :
  dumps lvl (VList (x :: l))
  = 91%N :: newline_indent (S lvl) ++ items_text (S lvl) (x :: l)
    ++ newline_indent lvl ++ [93%N].
Proof. reflexivity. Qed.

Lemma dumps_dict_cons (lvl : nat) (x : str * pyval) (d : list (str * pyval)) :
  dumps lvl (VDict (x :: d))
  = 123%N :: newline_indent (S lvl) ++ members_text (S lvl) (x :: d)
    ++ newline_indent lvl ++ [125%N].
Proof. reflexivity. Qed.

Lemma items_text_cons (k : nat) (x : pyval) (l : list pyval) :
  items_text k (x :: l)
  = dumps k x ++ match l with
                 | [] => []
                 | _ => 44%N :: newline_indent k ++ items_text k l
                 end.
Proof.
  unfold items_text. destruct l as [|y l]; cbn [map join].
  - now rewrite app_nil_r.
  - reflexivity.
Qed.

Lemma members_text_cons (k : nat) (x : str * pyval) (d : list (str * pyval)) :
  members_text k (x :: d)
  = member_text k x ++ match d with
                       | [] => []
                       | _ => 44%N :: newline_indent k ++ members_text k d
                       end.
Proof.
  unfold members_text. destruct d as [|y d]; cbn [map join].
  - now rewrite app_nil_r.
  - reflexivity.
Qed.

Lemma dumps_head (v : pyval) (lvl : nat) :
  storable v = true ->
  exists c r, dumps lvl v = c :: r /\ is_json_ws c = false /\ c <> 93%N.
Proof.
  destruct v as [|[|]|z|x|s|[|y l]|[|y d]]; intros H; try discriminate;
    try (do 2 eexists; split; [reflexivity|]; split; [reflexivity|]; discriminate).
  destruct (str_of_Z_head z) as [c [r [E Hc]]].
  exists c, r. split; [exact E|].
  destruct Hc as [Hc|[-> _]].
  - split; [|lia]. unfold is_json_ws.
    rewrite !(@eqb_out_of_range c _ Hc) by lia. reflexivity.
  - split; [reflexivity|discriminate].
Qed.

Lemma dumps_head_stops (v : pyval) (lvl : nat) (t : str) :
  storable v = true -> stops is_json_ws (dumps lvl v ++ t).
Proof.
  intros H. destruct (dumps_head v lvl H) as [c [r [E [Hc _]]]].
  rewrite E. exact Hc.
Qed.

Lemma dumps_length (v : pyval) (lvl : nat) :
  storable v = true -> 1 <= length (dumps lvl v).
Proof.
  intros H. destruct (dumps_head v lvl H) as [c [r [E _]]].
  rewrite E. cbn. lia.
Qed.


Lemma str_eqb_sym (a b : str) : str_eqb a b = str_eqb b a.
Proof.
  revert b. induction a as [|x a IH]; intros [|y b]; cbn; try reflexivity.
  now rewrite N.eqb_sym, IH.
Qed.

Lemma existsb_app_false {A : Type} (f : A -> bool) (a b : list A) :
  existsb f (a ++ b) = false -> existsb f a = false /\ existsb f b = false.
Proof. rewrite existsb_app. apply orb_false_elim. Qed.

Lemma distinct_middle (a b : list str) (k : str) :
  distinct (a ++ k :: b) = true ->
  existsb (str_eqb k) a = false /\ distinct ((a ++ [k]) ++ b) = true.
Proof.
  induction a as [|x a IH]; cbn [app distinct existsb]; intros H.
  - split; [reflexivity|exact H].
  - apply andb_prop in H as [Hx Hd]. destruct (IH Hd) as [H1 H2].
    apply negb_true_iff in Hx.
    destruct (@existsb_app_false _ _ _ _ Hx) as [Hxa Hxb].
    cbn [existsb] in Hxb. apply orb_false_elim in Hxb as [Hxk Hxb].
    split.
    + rewrite str_eqb_sym, Hxk, H1. reflexivity.
    + rewrite H2, andb_true_r. apply negb_true_iff.
      rewrite !existsb_app. cbn [existsb]. now rewrite Hxa, Hxk, Hxb.
Qed.

Lemma dict_set_fresh (k : str) (v : pyval) (acc : dict) :
  existsb (str_eqb k) (map fst acc) = false -> dict_set k v acc = acc ++ [(k, v)].
Proof.
  induction acc as [|[k' v'] acc IH]; cbn [map fst existsb dict_set app]; intros H.
  - reflexivity.
  - apply orb_false_elim in H as [H1 H2]. rewrite H1, (IH H2). reflexivity.
Qed.

Lemma fold_dict_set_distinct (l acc : list (str * pyval)) :
  distinct (map fst acc ++ map fst l) = true ->
  fold_left (fun d kv => dict_set (fst kv) (snd kv) d) l acc = acc ++ l.
Proof.
  revert acc. induction l as [|[k v] l IH]; intros acc H; cbn [fold_left map fst snd] in *.
  - now rewrite app_nil_r.
  - destruct (@distinct_middle _ _ _ H) as [H1 H2].
    rewrite (@dict_set_fresh _ v _ H1), IH.
    + rewrite <- app_assoc. reflexivity.
    + rewrite map_app. exact H2.
Qed.

Lemma dict_of_pairs_distinct (d : list (str * pyval)) :
  distinct (map fst d) = true -> dict_of_pairs d = d.
Proof. intros H. unfold dict_of_pairs. now rewrite fold_dict_set_distinct. Qed.


Lemma delim_comma (t : str) : delim (44%N :: t).
Proof. now left. Qed.

Lemma delim_newline_indent (k : nat) (t : str) : delim (newline_indent k ++ t).
Proof. now right. Qed.

Lemma roundtrip_value_step (f : nat) :
  roundtrip_at f ->
  forall v lvl rest,
    storable v = true -> delim rest -> length (dumps lvl v) <= S f ->
    parse_value (S f) (dumps lvl v ++ rest) = POk v rest.
Proof.
  intros [IHv [IHl IHd]] v lvl rest Hs Hd Hlen.
  destruct v as [|[|]|z|x|s|[|y l]|[|y d]]; try discriminate.
  - cbn [dumps]. cbn. reflexivity.
  - cbn [dumps]. cbn. reflexivity.
  - cbn [dumps]. cbn. reflexivity.
  - cbn [dumps]. now apply parse_value_int.
  - cbn [dumps]. unfold json_string. cbn [app parse_value].
    change (c_dquote =? 34)%N with true. cbv iota.
    rewrite <- app_assoc. cbn [app]. now rewrite scan_string_escaped.
  - cbn [dumps]. cbn. reflexivity.
  - rewrite dumps_list_cons in *. cbn [app parse_value].
    cbn [N.eqb Pos.eqb]. rewrite <- !app_assoc.
    rewrite json_ws_newline_indent.
    cbn [storable forallb] in Hs. apply andb_prop in Hs as [Hy Hl].
    rewrite json_ws_stops
      by (rewrite items_text_cons, <- app_assoc; now apply dumps_head_stops).
    destruct (dumps_head y (S lvl) Hy) as [c [r [E [_ Hc]]]].
    assert (Ehead : exists r', items_text (S lvl) (y :: l) ++ newline_indent lvl ++ [93%N] ++ rest = c :: r').
    { rewrite items_text_cons, E. cbn [app]. eauto. }
    destruct Ehead as [r' Er]. rewrite Er.
    apply N.eqb_neq in Hc. rewrite Hc.
    rewrite <- Er. cbn [app].
    rewrite IHl; [reflexivity|discriminate| |].
    + cbn [forallb]. now rewrite Hy, Hl.
    + cbn [length] in Hlen. rewrite !length_app in Hlen. cbn [length] in Hlen.
      unfold newline_indent in Hlen. cbn [length] in Hlen. lia.
  - cbn [dumps]. cbn. reflexivity.
  - rewrite dumps_dict_cons in *. cbn [app parse_value].
    cbn [N.eqb Pos.eqb]. rewrite <- !app_assoc.
    rewrite json_ws_newline_indent.
    cbn [storable forallb map] in Hs. apply andb_prop in Hs as [Hk Hs].
    assert (Ehead : exists r', members_text (S lvl) (y :: d) ++ newline_indent lvl ++ [125%N] ++ rest = 34%N :: r').
    { rewrite members_text_cons. unfold member_text, json_string. cbn [app]. eauto. }
    destruct Ehead as [r' Er]. rewrite Er.
    rewrite json_ws_stops by reflexivity.
    cbn [N.eqb Pos.eqb]. rewrite <- Er. cbn [app].
    rewrite IHd; [|discriminate|exact Hs|].
    + now rewrite dict_of_pairs_distinct.
    + cbn [length] in Hlen. rewrite !length_app in Hlen. cbn [length] in Hlen.
      unfold newline_indent in Hlen. cbn [length] in Hlen. lia.
Qed.


Lemma roundtrip_items_step (f : nat) :
  roundtrip_at f ->
  forall l k k' rest,
    l <> [] -> forallb storable l = true -> length (items_text k l) < S f ->
    parse_items (S f) (items_text k l ++ newline_indent k' ++ 93%N :: rest)
    = POk l rest.
Proof.
  intros [IHv [IHl IHd]] l k k' rest Hne Hs Hlen.
  destruct l as [|x l]; [contradiction|].
  cbn [forallb] in Hs. apply andb_prop in Hs as [Hx Hl].
  rewrite items_text_cons in *. rewrite length_app in Hlen.
  pose proof (dumps_length x k Hx) as H1.
  rewrite <- app_assoc. cbn [parse_items].
  destruct l as [|y l].
  - cbn [app]. rewrite IHv; [|exact Hx|apply delim_newline_indent|lia].
    rewrite json_ws_newline_indent, json_ws_stops by reflexivity.
    reflexivity.
  - cbn [app]. rewrite IHv; [|exact Hx|apply delim_comma|lia].
    rewrite json_ws_stops by reflexivity. cbn [N.eqb Pos.eqb].
    rewrite <- app_assoc, json_ws_newline_indent.
    assert (Hy : storable y = true) by (cbn [forallb] in Hl; now apply andb_prop in Hl).
    rewrite json_ws_stops
      by (rewrite items_text_cons, <- app_assoc; now apply dumps_head_stops).
    rewrite IHl; [reflexivity|discriminate|exact Hl|].
    cbn [length] in Hlen. rewrite length_app in Hlen. lia.
Qed.

Lemma roundtrip_members_step (f : nat) :
  roundtrip_at f ->
  forall d k k' rest,
    d <> [] -> forallb (fun kv => storable (snd kv)) d = true ->
    length (members_text k d) < S f ->
    parse_members (S f) (members_text k d ++ newline_indent k' ++ 125%N :: rest)
    = POk d rest.
Proof.
  intros [IHv [IHl IHd]] d k k' rest Hne Hs Hlen.
  destruct d as [|[key x] d]; [contradiction|].
  cbn [forallb snd] in Hs. apply andb_prop in Hs as [Hx Hd].
  rewrite members_text_cons in *. rewrite length_app in Hlen.
  pose proof (dumps_length x k Hx) as H1.
  unfold member_text, json_string in *. cbn [fst snd] in *.
  change (u ": ") with [58%N; 32%N] in *.
  cbn [app length] in Hlen. rewrite !length_app in Hlen. cbn [length] in Hlen.
  rewrite <- !app_assoc. cbn [app parse_members].
  change (c_dquote =? 34)%N with true. cbv iota.
  rewrite <- !app_assoc. cbn [app].
  rewrite scan_string_escaped.
  rewrite json_ws_stops by reflexivity. cbn [N.eqb Pos.eqb].
  change (32%N :: ?t) with ([32%N] ++ t).
  destruct d as [|y d].
  - cbn [app].
    change (32%N :: dumps k x ++ newline_indent k' ++ 125%N :: rest)
      with ([32%N] ++ dumps k x ++ newline_indent k' ++ 125%N :: rest).
    rewrite json_ws_app by reflexivity.
    rewrite json_ws_stops by (now apply dumps_head_stops).
    rewrite IHv; [|exact Hx|apply delim_newline_indent|lia].
    rewrite json_ws_newline_indent, json_ws_stops by reflexivity.
    reflexivity.
  - cbn [app].
    match goal with |- context [json_ws (32%N :: ?t)] =>
      change (32%N :: t) with ([32%N] ++ t) end.
    rewrite json_ws_app by reflexivity.
    rewrite json_ws_stops by (now apply dumps_head_stops).
    rewrite IHv; [|exact Hx|apply delim_comma|lia].
    rewrite json_ws_stops by reflexivity. cbn [N.eqb Pos.eqb].
    rewrite <- app_assoc, json_ws_newline_indent.
    rewrite json_ws_stops
      by (rewrite members_text_cons; unfold member_text, json_string; reflexivity).
    rewrite IHd; [reflexivity|discriminate|exact Hd|].
    cbn [length] in Hlen. rewrite length_app in Hlen. lia.
Qed.

Lemma roundtrip_all (fuel : nat) : roundtrip_at fuel.
Proof.
  induction fuel as [|f IH].
  - split; [|split].
    + intros v lvl rest Hs _ Hlen. pose proof (dumps_length v lvl Hs). lia.
    + intros l k k' rest _ _ Hlen. lia.
    + intros d k k' rest _ _ Hlen. lia.
  - split; [|split].
    + now apply roundtrip_value_step.
    + now apply roundtrip_items_step.
    + now apply roundtrip_members_step.
Qed.

Theorem json_loads_dumps (v : pyval) :
  storable v = true -> json_loads (json_dumps v) = Some v.
Proof.
  intros Hs. unfold json_loads, json_dumps.
  rewrite json_ws_stops
    by (rewrite <- (app_nil_r (dumps 0 v)); now apply dumps_head_stops).
  rewrite <- (app_nil_r (dumps 0 v)) at 2.
  rewrite (proj1 (roundtrip_all _)); [reflexivity|exact Hs|exact I|lia].
Qed.

End Roundtrip.



Lemma map_fst_dict_set (k : str) (v : pyval) (d : dict) :
  map fst (dict_set k v d)
  = if existsb (str_eqb k) (map fst d) then map fst d else map fst d ++ [k].
Proof.
  induction d as [|[k' v'] d IH]; cbn [dict_set map fst existsb app]; [reflexivity|].
  destruct (str_eqb k k') eqn:E; cbn [map fst orb]; [reflexivity|].
  rewrite IH. destruct (existsb (str_eqb k) (map fst d)); reflexivity.
Qed.

Lemma distinct_snoc (l : list str) (k : str) :
  distinct l = true -> existsb (str_eqb k) l = false -> distinct (l ++ [k]) = true.
Proof.
  induction l as [|x l IH]; cbn [app distinct existsb]; intros Hd Hk; [reflexivity|].
  apply andb_prop in Hd as [Hx Hd]. apply orb_false_elim in Hk as [Hkx Hk].
  rewrite (IH Hd Hk), andb_true_r. apply negb_true_iff.
  rewrite existsb_app. cbn [existsb]. apply negb_true_iff in Hx.
  now rewrite Hx, str_eqb_sym, Hkx.
Qed.

Lemma distinct_dict_set (k : str) (v : pyval) (d : dict) :
  distinct (map fst d) = true -> distinct (map fst (dict_set k v d)) = true.
Proof.
  intros H. rewrite map_fst_dict_set.
  destruct (existsb (str_eqb k) (map fst d)) eqn:E; [exact H|].
  now apply distinct_snoc.
Qed.

Lemma forallb_dict_set (P : pyval -> bool) (k : str) (v : pyval) (d : dict) :
  forallb (fun kv => P (snd kv)) d = true -> P v = true ->
  forallb (fun kv => P (snd kv)) (dict_set k v d) = true.
Proof.
  intros Hd Hv. induction d as [|[k' v'] d IH]; cbn [dict_set forallb snd] in *.
  - now rewrite Hv.
  - apply andb_prop in Hd as [H1 H2].
    destruct (str_eqb k k'); cbn [forallb snd].
    + now rewrite Hv, H2.
    + now rewrite H1, (IH H2).
Qed.

Lemma forallb_dict_get (P : pyval -> bool) (k : str) (v : pyval) (d : dict) :
  forallb (fun kv => P (snd kv)) d = true -> dict_get k d = Some v -> P v = true.
Proof.
  induction d as [|[k' v'] d IH]; cbn [dict_get forallb snd]; [discriminate|].
  intros H. apply andb_prop in H as [H1 H2].
  destruct (str_eqb k k'); [intros E; injection E as <-; exact H1|now apply IH].
Qed.

Lemma storable_dict_set (k : str) (v : pyval) (d : dict) :
  storable (VDict d) = true -> storable v = true ->
  storable (VDict (dict_set k v d)) = true.
Proof.
  cbn [storable]. intros H Hv. apply andb_prop in H as [H1 H2].
  rewrite (distinct_dict_set k v d H1).
  now rewrite (@forallb_dict_set storable k v d H2 Hv).
Qed.

Lemma storable_dict_get (k : str) (v : pyval) (d : dict) :
  storable (VDict d) = true -> dict_get k d = Some v -> storable v = true.
Proof.
  cbn [storable]. intros H. apply andb_prop in H as [_ H2].
  now apply (@forallb_dict_get storable).
Qed.

Section Bump.
Context {rt : runtime}.

Lemma bump_on_storable (day : str) (st st' : pyval) (inc : Z) :
  storable st = true -> bump_on day st inc = Ok st' -> storable st' = true.
Proof.
  unfold bump_on. intros Hs.
  destruct st as [| | | | |?|sd]; try discriminate.
  destruct (dict_get (u "days") sd) as [days|] eqn:Ed.
  - pose proof (@storable_dict_get _ _ _ Hs Ed) as Hdays.
    destruct days as [| | | | |?|dd]; try discriminate.
    destruct (dict_get day dd) as [e|] eqn:Ee.
    + pose proof (@storable_dict_get _ _ _ Hdays Ee) as He.
      destruct e as [| | | | |?|de]; try discriminate.
      destruct (py_int _); [|discriminate].
      intros H. injection H as <-.
      repeat (apply storable_dict_set; try assumption). reflexivity.
    + destruct (py_int _); [|discriminate].
      intros H. injection H as <-.
      repeat (apply storable_dict_set; try assumption); reflexivity.
  - destruct (dict_get day []) eqn:Ee; [discriminate|].
    destruct (py_int _); [|discriminate].
    intros H. injection H as <-.
    repeat (apply storable_dict_set; try assumption); reflexivity.
Qed.

End Bump.

Lemma dict_of_pairs_keys (l acc : list (str * pyval)) :
  distinct (map fst acc) = true ->
  distinct (map fst (fold_left (fun d kv => dict_set (fst kv) (snd kv) d) l acc)) = true.
Proof.
  revert acc. induction l as [|[k v] l IH]; intros acc H; cbn [fold_left fst snd];
    [exact H|].
  apply IH. now apply distinct_dict_set.
Qed.

Lemma in_dict_set (kv : str * pyval) (k : str) (v : pyval) (d : dict) :
  In kv (dict_set k v d) -> kv = (k, v) \/ In kv d.
Proof.
  induction d as [|[k' v'] d IH]; cbn [dict_set In].
  - intros [<-|[]]. now left.
  - destruct (str_eqb k k') eqn:E; cbn [In].
    + apply str_eqb_eq in E. subst k'. intros [<-|H]; [now left|now right; right].
    + intros [<-|H]; [now right; left|].
      destruct (IH H) as [->|H']; [now left|now right; right].
Qed.

Lemma in_fold_dict_set (kv : str * pyval) (l acc : list (str * pyval)) :
  In kv (fold_left (fun d kv => dict_set (fst kv) (snd kv) d) l acc) ->
  In kv acc \/ In kv l.
Proof.
  revert acc. induction l as [|[k v] l IH]; intros acc; cbn [fold_left fst snd In].
  - now left.
  - intros H. destruct (IH _ H) as [H1|H1].
    + destruct (in_dict_set _ _ _ _ H1) as [->|H2]; [right; now left|now left].
    + right. now right.
Qed.

Lemma storable_dict_of_pairs (l : list (str * pyval)) :
  Forall (fun kv => no_float (snd kv) = true -> storable (snd kv) = true) l ->
  no_float (VDict (dict_of_pairs l)) = true ->
  storable (VDict (dict_of_pairs l)) = true.
Proof.
  intros Hl Hn. cbn [storable no_float] in *. unfold dict_of_pairs in *.
  rewrite (dict_of_pairs_keys l [] eq_refl). cbn [andb].
  apply forallb_forall. intros kv Hin.
  rewrite forallb_forall in Hn. rewrite Forall_forall in Hl.
  destruct (in_fold_dict_set _ _ _ Hin) as [[]|H].
  apply (Hl kv H). now apply Hn.
Qed.

Lemma storable_list (l : list pyval) :
  Forall (fun v => no_float v = true -> storable v = true) l ->
  no_float (VList l) = true -> storable (VList l) = true.
Proof.
  intros Hl Hn. cbn [storable no_float] in *.
  apply forallb_forall. intros v Hin.
  rewrite forallb_forall in Hn. rewrite Forall_forall in Hl.
  apply (Hl v Hin). now apply Hn.
Qed.

Lemma lit_res_value (lit : str) (v v' : pyval) (t r : str) :
  lit_res lit v t = POk v' r -> v' = v.
Proof. unfold lit_res. destruct (strip_prefix lit t); congruence. Qed.

Lemma scan_number_value (t r : str) (v : pyval) :
  scan_number t = Some (v, r) -> no_float v = true -> storable v = true.
Proof.
  unfold scan_number. destruct (scan_int_part t) as [[[neg ds] r0]|]; [|discriminate].
  destruct (scan_frac r0) as [fr r1]. destruct (scan_exp r1) as [ex r2].
  destruct fr; destruct ex; intros H; injection H as <- <-; intros Hn;
    first [reflexivity|discriminate].
Qed.

Lemma parsed_ok_all (fuel : nat) : parsed_ok fuel.
Proof.
  induction fuel as [|f [IHv [IHl IHd]]].
  - repeat split; intros; discriminate.
  - split; [|split].
    + intros t v r H. cbn [parse_value] in H.
      destruct t as [|c t']; [discriminate|].
      destruct (c =? 34)%N.
      { destruct (scan_string t') as [[s r']|]; [|discriminate].
        injection H as <- <-. reflexivity. }
      destruct (c =? 123)%N.
      { destruct (json_ws t') as [|c1 r1]; [discriminate|].
        destruct (c1 =? 125)%N; [injection H as <- <-; reflexivity|].
        destruct (parse_members f (c1 :: r1)) as [l r2| |] eqn:E; try discriminate.
        injection H as <- <-. apply storable_dict_of_pairs. eapply IHd, E. }
      destruct (c =? 91)%N.
      { destruct (json_ws t') as [|c1 r1]; [discriminate|].
        destruct (c1 =? 93)%N; [injection H as <- <-; reflexivity|].
        destruct (parse_items f (c1 :: r1)) as [l r2| |] eqn:E; try discriminate.
        injection H as <- <-. apply storable_list. eapply IHl, E. }
      destruct (c =? 110)%N; [apply lit_res_value in H; subst; reflexivity|].
      destruct (c =? 116)%N; [apply lit_res_value in H; subst; reflexivity|].
      destruct (c =? 102)%N; [apply lit_res_value in H; subst; reflexivity|].
      destruct (c =? 78)%N; [apply lit_res_value in H; subst; discriminate|].
      destruct (c =? 73)%N; [apply lit_res_value in H; subst; discriminate|].
      destruct (starts_with (u "-Infinity") (c :: t'));
        [apply lit_res_value in H; subst; discriminate|].
      destruct (scan_number (c :: t')) as [[v' r']|] eqn:E; [|discriminate].
      injection H as <- <-. eapply scan_number_value, E.
    + intros t l r H. cbn [parse_items] in H.
      destruct (parse_value f t) as [v r1| |] eqn:E; try discriminate.
      destruct (json_ws r1) as [|c r2]; [discriminate|].
      destruct (c =? 93)%N.
      { injection H as <- <-. constructor; [eapply IHv, E|constructor]. }
      destruct (c =? 44)%N; [|discriminate].
      destruct (parse_items f (json_ws r2)) as [l' r3| |] eqn:E2; try discriminate.
      injection H as <- <-. constructor; [eapply IHv, E|eapply IHl, E2].
    + intros t l r H. cbn [parse_members] in H.
      destruct t as [|c t']; [discriminate|].
      destruct (c =? 34)%N; [|discriminate].
      destruct (scan_string t') as [[k r1]|]; [|discriminate].
      destruct (json_ws r1) as [|c1 r2]; [discriminate|].
      destruct (c1 =? 58)%N; [|discriminate].
      destruct (parse_value f (json_ws r2)) as [v r3| |] eqn:E; try discriminate.
      destruct (json_ws r3) as [|c2 r4]; [discriminate|].
      destruct (c2 =? 125)%N.
      { injection H as <- <-. constructor; [cbn [snd]; eapply IHv, E|constructor]. }
      destruct (c2 =? 44)%N; [|discriminate].
      destruct (parse_members f (json_ws r4)) as [l' r5| |] eqn:E2; try discriminate.
      injection H as <- <-. constructor; [cbn [snd]; eapply IHv, E|eapply IHd, E2].
Qed.

Lemma json_loads_storable (t : str) (v : pyval) :
  json_loads t = Some v -> no_float v = true -> storable v = true.
Proof.
  unfold json_loads.
  destruct (parse_value (2 * length t + 1) (json_ws t)) as [v' r| |] eqn:E;
    try discriminate.
  destruct (json_ws r); [|discriminate].
  intros H. injection H as <-. eapply (proj1 (parsed_ok_all _)), E.
Qed.

Lemma loaded_storable (f : file) :
  no_float (loaded f) = true -> storable (loaded f) = true.
Proof.
  unfold loaded. destruct f as [| |s]; try reflexivity.
  destruct (json_loads s) as [v|] eqn:E; [|reflexivity].
  now apply (json_loads_storable s).
Qed.

(** ** The run *)

Section RunProperties.
Context {rt : runtime} (cfg : config) (env : environment).


Lemma count_on_bump_ok (d : str) (st : pyval) (c : Z) :
  count_on d st = Ok c -> exists st', bump_on d st 1 = Ok st'.
Proof. intros H. destruct (@bump_on_count _ _ _ _ H) as [st' [H1 _]]. eauto. Qed.

Lemma get_today_counts_ok (st : pyval) (w : world) (z : Z) :
  count_on (day_now env w) st = Ok z ->
  get_today_counts env st w = (Ok z, tick w).
Proof.
  unfold count_on, day_now. cbv [get_today_counts bind lift today_key now_sgt ret raise].
  destruct (py_get st (u "days") (VDict [])) as [days|e]; [|discriminate].
  destruct days; try discriminate. cbn [is_dict py_get].
  intros H.
  destruct (match dict_get (ymd (clock env (clock_reads w))) d with
            | Some x => x | None => VDict [] end) as [| | | | |?|de] eqn:E;
    cbn [py_get] in *; try discriminate.
  now rewrite H.
Qed.

Lemma bump_today_count_ok (st st' : pyval) (inc : Z) (w : world) :
  bump_on (day_now env w) st inc = Ok st' ->
  bump_today_count env st inc w
  = (Ok st', set_state_file (Content (json_dumps st')) (tick w)).
Proof.
  unfold bump_on, day_now.
  cbv [bump_today_count bind lift today_key now_sgt ret raise save_state].
  destruct st as [| | | | |?|sd]; try discriminate.
  destruct (match dict_get (u "days") sd with Some x => x | None => VDict [] end)
    as [| | | | |?|dd]; try discriminate.
  destruct (match dict_get (ymd (clock env (clock_reads w))) dd with
            | Some x => x | None => VDict [(u "tries", VInt 0)] end)
    as [| | | | |?|de]; try discriminate.
  cbn [py_get].
  destruct (py_int match dict_get (u "tries") de with Some t => t | None => VInt 0 end);
    [|discriminate].
  intros H. injection H as <-. reflexivity.
Qed.

Lemma bump_today_count_err (st : pyval) (inc : Z) (w : world) (e : exn) :
  bump_on (day_now env w) st inc = Err e ->
  exists e' w', bump_today_count env st inc w = (Err e', w') /\
    state_file w' = state_file w /\ draws_sent w' = draws_sent w /\
    push_calls w' = push_calls w /\ push_posts w' = push_posts w /\
    report_json w' = report_json w /\ report_html w' = report_html w /\
    topups_sent w' = topups_sent w.
Proof.
  unfold bump_on, day_now.
  cbv [bump_today_count bind lift today_key now_sgt ret raise save_state].
  destruct st as [| | | | |?|sd]; try (intros _; do 2 eexists; split; [reflexivity|repeat split]).
  destruct (match dict_get (u "days") sd with Some x => x | None => VDict [] end)
    as [| | | | |?|dd]; try (intros _; do 2 eexists; split; [reflexivity|repeat split]).
  destruct (match dict_get (ymd (clock env (clock_reads w))) dd with
            | Some x => x | None => VDict [(u "tries", VInt 0)] end)
    as [| | | | |?|de]; try (intros _; do 2 eexists; split; [reflexivity|repeat split]).
  cbn [py_get].
  destruct (py_int match dict_get (u "tries") de with Some t => t | None => VInt 0 end);
    [discriminate|].
  intros _; do 2 eexists; split; [reflexivity|repeat split].
Qed.

Lemma attempt_once_bumped (st st1 : pyval) (w : world) :
  bump_on (day_now env w) st 1 = Ok st1 ->
  exists r w',
    attempt_once env st w = (r, w') /\
    state_file w' = Content (json_dumps st1) /\
    clock_reads w' = S (clock_reads w) /\
    draws_sent w' = S (draws_sent w) /\
    quiet w w' /\
    (forall x, r = Ok x -> fst x = st1) /\
    (polite_draw (draw_reply env (draws_sent w)) = true ->
     (forall n k, polite_topup (topup_reply env n k) = true) ->
     exists rec, r = Ok (st1, rec) /\ printable rec = true).
Proof.
  intros Hb.
  assert (Hb' : bump_on (day_now env (count_draw w)) st 1 = Ok st1) by exact Hb.
  unfold attempt_once, polite_draw.
  unfold bind at 1. unfold luckydraw_once.
  destruct (draw_outcome (draw_reply env (draws_sent w))) as [[c m] p].
  unfold bind at 1. rewrite (@bump_today_count_ok st st1 1%Z (count_draw w) Hb').
  unfold bind at 1. unfold lift at 1.
  destruct (truthy c) eqn:Ec.
  - destruct (mask_code c) as [mask|e] eqn:Em.
    + unfold bind at 1. unfold lift at 1.
      unfold bind at 1. unfold topup_once.
      set (w2 := set_state_file (Content (json_dumps st1)) (tick (count_draw w))).
      unfold polite_topup.
      destruct (topup_outcome (topup_reply env (length (topups_sent w2)) c))
        as [[[ok msg] amt]|e] eqn:Et.
      * do 2 eexists. split; [reflexivity|]. cbn.
        repeat split; try reflexivity.
        -- intros x Hx. injection Hx as <-. reflexivity.
        -- intros Hp Ht. eexists. split; [reflexivity|].
           specialize (Ht (length (topups_sent w2)) c). rewrite Et in Ht.
           unfold printable. cbn [draw_msg topup_msg].
           try (apply andb_prop in Hp as [_ Hp]). now rewrite Hp, Ht.
      * do 2 eexists. split; [reflexivity|]. cbn.
        repeat split; try reflexivity.
        -- intros x Hx. discriminate.
        -- intros _ Ht. specialize (Ht (length (topups_sent w2)) c).
           rewrite Et in Ht. discriminate.
    + do 2 eexists. split; [reflexivity|]. cbn.
      repeat split; try reflexivity.
      * intros x Hx. discriminate.
      * intros Hp _. discriminate.
  - unfold ret. do 2 eexists. split; [reflexivity|]. cbn.
    repeat split; try reflexivity.
    + intros x Hx. injection Hx as <-. reflexivity.
    + intros Hp _. eexists. split; [reflexivity|].
      unfold printable. cbn [draw_msg topup_msg].
      try (apply andb_prop in Hp as [_ Hp]). rewrite Hp.
      destruct (truthy m); reflexivity.
Qed.

Lemma attempt_once_failed_bump (st : pyval) (e : exn) (w : world) :
  bump_on (day_now env w) st 1 = Err e ->
  exists e' w',
    attempt_once env st w = (Err e', w') /\
    state_file w' = state_file w /\
    draws_sent w' = S (draws_sent w) /\
    quiet w w'.
Proof.
  intros Hb.
  assert (Hb' : bump_on (day_now env (count_draw w)) st 1 = Err e) by exact Hb.
  destruct (@bump_today_count_err st 1%Z (count_draw w) e Hb') as [e' [w' [H [Hf [Hd [H1 [H2 [H3 [H4 _]]]]]]]]].
  unfold attempt_once.
  unfold bind at 1. unfold luckydraw_once.
  destruct (draw_outcome (draw_reply env (draws_sent w))) as [[c m] p].
  unfold bind at 1. rewrite H.
  do 2 eexists. split; [reflexivity|].
  repeat split; assumption.
Qed.

Lemma quiet_refl (w : world) : quiet w w.
Proof. repeat split. Qed.

Lemma quiet_trans (w1 w2 w3 : world) : quiet w1 w2 -> quiet w2 w3 -> quiet w1 w3.
Proof.
  intros [A1 [A2 [A3 A4]]] [B1 [B2 [B3 B4]]].
  repeat split; congruence.
Qed.

Lemma attempts_trace (n : nat) :
  forall (st : pyval) (res : list attempt) (w : world) r w',
  attempts env n st res w = (r, w') ->
  quiet w w' /\
  draws_sent w <= draws_sent w' <= draws_sent w + n /\
  (forall stk,
     bumps env (clock_reads w) (draws_sent w' - draws_sent w) st = Ok stk ->
     (draws_sent w' = draws_sent w /\ state_file w' = state_file w) \/
     state_file w' = Content (json_dumps stk)) /\
  (forall x, r = Ok x ->
     draws_sent w' = draws_sent w + n /\
     clock_reads w' = clock_reads w + n /\
     bumps env (clock_reads w) n st = Ok (fst x) /\
     exists recs, snd x = res ++ recs /\ length recs = n).
Proof.
  induction n as [|n IH]; intros st res w r w' H.
  - cbn in H. injection H as <- <-.
    split; [apply quiet_refl|]. split; [lia|]. split.
    + intros stk _. left. split; reflexivity.
    + intros x Hx. injection Hx as <-. cbn.
      repeat split; try lia. exists []. now rewrite app_nil_r.
  - cbn [attempts] in H. unfold bind at 1 in H.
    destruct (bump_on (day_now env w) st 1) as [st1|e] eqn:Hb.
    + destruct (@attempt_once_bumped st st1 w Hb)
        as [r1 [w1 [E [Hf [Hc [Hd [Hq [Hst _]]]]]]]].
      rewrite E in H. destruct r1 as [[st1' rec]|e1].
      * specialize (Hst _ eq_refl). cbn in Hst. subst st1'.
        destruct (IH _ _ _ _ _ H) as [Q [D [F R]]].
        split; [eapply quiet_trans; eassumption|]. split; [lia|]. split.
        -- intros stk Hk.
           replace (draws_sent w' - draws_sent w)
             with (S (draws_sent w' - draws_sent w1)) in Hk by lia.
           cbn [bumps] in Hk. unfold day_now in Hb. rewrite Hb in Hk.
           rewrite <- Hc in Hk. destruct (F _ Hk) as [[A B]|A].
           ++ right. rewrite B, Hf. f_equal. f_equal.
              replace (draws_sent w' - draws_sent w1) with 0 in Hk by lia.
              cbn in Hk. congruence.
           ++ right. exact A.
        -- intros x Hx. destruct (R _ Hx) as [R1 [R2 [R3 [recs [R4 R5]]]]].
           split; [lia|]. split; [lia|]. split.
           ++ cbn [bumps]. unfold day_now in Hb. rewrite Hb, <- Hc. exact R3.
           ++ exists (rec :: recs). split; [|cbn; lia].
              rewrite R4, <- app_assoc. reflexivity.
      * injection H as <- <-.
        split; [exact Hq|]. split; [lia|]. split.
        -- intros stk Hk. right.
           replace (draws_sent w1 - draws_sent w) with 1 in Hk by lia.
           cbn [bumps] in Hk. unfold day_now in Hb. rewrite Hb in Hk.
           cbn in Hk. congruence.
        -- intros x Hx. discriminate.
    + destruct (@attempt_once_failed_bump st e w Hb) as [e' [w1 [E [Hf [Hd Hq]]]]].
      rewrite E in H. injection H as <- <-.
      split; [exact Hq|]. split; [lia|]. split.
      * intros stk Hk.
        replace (draws_sent w1 - draws_sent w) with 1 in Hk by lia.
        cbn [bumps] in Hk. unfold day_now in Hb. rewrite Hb in Hk. discriminate.
      * intros x Hx. discriminate.
Qed.

Lemma bump_on_readable (t : nat) (st st' : pyval) :
  readable env st -> bump_on (ymd (clock env t)) st 1 = Ok st' -> readable env st'.
Proof.
  intros Hr Hb n.
  destruct (Hr t) as [c Hc].
  destruct (@bump_on_count _ _ _ _ Hc) as [st'' [H1 [H2 H3]]].
  rewrite Hb in H1. injection H1 as <-.
  destruct (str_eqb (ymd (clock env n)) (ymd (clock env t))) eqn:E.
  - apply str_eqb_eq in E. rewrite E. eauto.
  - rewrite H3.
    + apply Hr.
    + intros Heq. rewrite Heq, str_eqb_refl in E. discriminate.
Qed.

Lemma forallb_snoc {A : Type} (f : A -> bool) (l : list A) (x : A) :
  forallb f (l ++ [x]) = forallb f l && f x.
Proof. rewrite forallb_app. cbn. now rewrite andb_true_r. Qed.

Lemma attempts_total (n : nat) :
  polite env ->
  forall (st : pyval) (res : list attempt) (w : world),
  readable env st ->
  forallb printable res = true ->
  exists x w',
    attempts env n st res w = (Ok x, w') /\
    readable env (fst x) /\ forallb printable (snd x) = true.
Proof.
  intros [Pd Pt]. induction n as [|n IH]; intros st res w Hr Hp.
  - do 2 eexists. split; [reflexivity|]. split; assumption.
  - destruct (Hr (clock_reads w)) as [c Hc].
    destruct (@count_on_bump_ok _ _ _ Hc) as [st1 Hb].
    destruct (@attempt_once_bumped st st1 w Hb)
      as [r1 [w1 [E [_ [_ [_ [_ [_ Hok]]]]]]]].
    destruct (Hok (Pd _) Pt) as [rec [-> Hrec]].
    cbn [attempts]. unfold bind at 1. rewrite E.
    apply IH.
    + eapply bump_on_readable; eassumption.
    + rewrite forallb_snoc, Hp, Hrec. reflexivity.
Qed.

Lemma inert_refl (w : world) : inert w w.
Proof. repeat split. Qed.

Lemma get_today_counts_err (st : pyval) (w : world) (e : exn) :
  count_on (day_now env w) st = Err e ->
  exists e' w', get_today_counts env st w = (Err e', w') /\ inert w w'.
Proof.
  unfold count_on, day_now. cbv [get_today_counts bind lift today_key now_sgt ret raise].
  destruct (py_get st (u "days") (VDict [])) as [days|e0].
  - destruct days as [| | | | |?|d]; cbn [is_dict py_get];
      try (intros _; do 2 eexists; split; [reflexivity|repeat split]).
    destruct (match dict_get (ymd (clock env (clock_reads w))) d with
              | Some x => x | None => VDict [] end) as [| | | | |?|de] eqn:E;
      cbn [py_get]; try (intros _; do 2 eexists; split; [reflexivity|repeat split]).
    intros H. rewrite H. do 2 eexists; split; [reflexivity|repeat split].
  - intros _. do 2 eexists; split; [reflexivity|repeat split].
Qed.

Lemma total_amount_ok (res : list attempt) : exists z, total_amount res = Ok z.
Proof.
  induction res as [|r res [z IH]]; [now exists 0%Z|].
  cbn [total_amount]. rewrite IH.
  destruct (topup_amount r); cbn; eauto.
Qed.

Lemma html_rows_ok (items : list attempt) :
  forallb printable items = true ->
  forall i, exists rows, html_rows i items = Ok rows.
Proof.
  induction items as [|it items IH]; intros Hp i; [now exists []|].
  cbn [forallb] in Hp. apply andb_prop in Hp as [Hit Hp].
  unfold printable in Hit. apply andb_prop in Hit as [H1 H2].
  destruct (IH Hp (S i)) as [rows Hrows].
  cbn [html_rows]. unfold html_row.
  destruct (html_escape (draw_msg it)); [|discriminate].
  cbn [html_escape].
  destruct (html_escape (topup_msg it)); [|discriminate].
  rewrite Hrows. eauto.
Qed.

Lemma render_html_ok (d : str) (items : list attempt) (total : Z) :
  forallb printable items = true -> exists page, render_html d items total = Ok page.
Proof.
  intros Hp. unfold render_html.
  destruct (@html_rows_ok items Hp 1) as [rows ->]. cbn [html_escape]. eauto.
Qed.

Lemma send_push_trace (t c : str) (w : world) :
  exists x w', send_push cfg env t c w = (Ok x, w') /\
    state_file w' = state_file w /\ draws_sent w' = draws_sent w /\
    report_json w' = report_json w /\ report_html w' = report_html w /\
    push_calls w' = push_calls w ++ [(t, c)].
Proof.
  unfold send_push.
  destruct (is_empty (PUSH_URL cfg) || is_empty (PUSH_TOKEN cfg)).
  - do 2 eexists. split; [reflexivity|]. repeat split.
  - destruct (push_reply env (length (push_posts w)) (push_payload cfg t c));
      do 2 eexists; (split; [reflexivity|]); repeat split.
Qed.

Ltac world_simpl :=
  cbn [state_file clock_reads draws_sent topups_sent push_calls push_posts
       report_json report_html tick set_state_file count_draw log_topup
       log_push_call log_push_post set_report_json set_report_html] in *.

Lemma finish_trace (st : pyval) (res : list attempt) (w : world) r w' :
  finish cfg env st res w = (r, w') ->
  state_file w' = state_file w /\ draws_sent w' = draws_sent w /\
  (forall e, r = Err e -> push_calls w' = push_calls w) /\
  (r = Ok tt ->
   exists total tried page,
     total_amount res = Ok total /\
     count_on (ymd (clock env (S (clock_reads w)))) st = Ok tried /\
     render_html (stamp_at env (clock_reads w)) res total = Ok page /\
     report_json w'
     = Some (json_dumps (summary_of cfg (stamp_at env (clock_reads w)) total res tried)) /\
     report_html w' = Some page /\
     push_calls w'
     = push_calls w ++ notified (stamp_at env (clock_reads w)) total res).
Proof.
  unfold finish. destruct (total_amount_ok res) as [total Ht].
  unfold bind at 1. rewrite Ht. unfold lift at 1.
  unfold bind at 1. unfold now_sgt at 1.
  unfold bind at 1.
  fold (stamp_at env (clock_reads w)).
  destruct (count_on (day_now env (tick w)) st) as [tried|e] eqn:Hc.
  - rewrite (@get_today_counts_ok st (tick w) tried Hc).
    unfold bind at 1. unfold write_report_json.
    unfold bind at 1. unfold lift at 1.
    destruct (render_html (stamp_at env (clock_reads w)) res total) as [page|e] eqn:Hr.
    + unfold bind at 1. unfold write_report_html.
      unfold notified.
      destruct (is_nil res || negb (has_success res)) eqn:Hs.
      * unfold ret. intros H. injection H as <- <-. world_simpl.
        split; [reflexivity|]. split; [reflexivity|]. split.
        -- intros e He. discriminate.
        -- intros _. exists total, tried, page. rewrite app_nil_r.
           repeat (split; [first [reflexivity|assumption]|]). reflexivity.
      * unfold bind at 1.
        match goal with |- context [send_push cfg env ?t ?c ?w3] =>
          destruct (send_push_trace t c w3) as [x [w4 [E [A1 [A2 [A3 [A4 A5]]]]]]] end.
        rewrite E. unfold ret.
        intros H. injection H as <- <-. world_simpl.
        split; [assumption|]. split; [assumption|]. split.
        -- intros e He. discriminate.
        -- intros _. exists total, tried, page.
           repeat (split; [first [reflexivity|assumption]|]). assumption.
    + intros H. injection H as <- <-. world_simpl.
      split; [reflexivity|]. split; [reflexivity|]. split.
      * intros; reflexivity.
      * intros H. discriminate.
  - destruct (@get_today_counts_err st (tick w) e Hc) as [e' [w1 [E [I1 [I2 [I3 _]]]]]].
    rewrite E. intros H. injection H as <- <-. world_simpl.
    split; [assumption|]. split; [assumption|]. split.
    + intros; assumption.
    + intros H. discriminate.
Qed.

Lemma finish_total (st : pyval) (res : list attempt) (w : world) :
  readable env st -> forallb printable res = true ->
  exists w', finish cfg env st res w = (Ok tt, w').
Proof.
  intros Hr Hp. unfold finish. destruct (total_amount_ok res) as [total Ht].
  unfold bind at 1. rewrite Ht. unfold lift at 1.
  unfold bind at 1. unfold now_sgt at 1.
  unfold bind at 1.
  destruct (Hr (clock_reads (tick w))) as [tried Hc].
  rewrite (@get_today_counts_ok st (tick w) tried Hc).
  unfold bind at 1. unfold write_report_json.
  unfold bind at 1. unfold lift at 1.
  destruct (@render_html_ok (ymd (clock env (clock_reads w)) ++ u " " ++ hms (clock env (clock_reads w))) res total Hp) as [page ->].
  unfold bind at 1. unfold write_report_html.
  destruct (is_nil res || negb (has_success res)).
  - eexists. reflexivity.
  - unfold bind at 1.
    match goal with |- context [send_push cfg env ?t ?c ?w3] =>
      destruct (send_push_trace t c w3) as [x [w4 [E _]]] end.
    rewrite E. eexists. reflexivity.
Qed.

Lemma load_state_loaded (w : world) : load_state w = (Ok (loaded (state_file w)), w).
Proof.
  unfold load_state, loaded. destruct (state_file w) as [| |s]; try reflexivity.
  destruct (json_loads s); reflexivity.
Qed.

Lemma main_run_loop (f : file) :
  missing_variables cfg = [] ->
  main cfg env (initial_world f)
  = match run_loop cfg env f with
    | (Ok (st, res), w1) => finish cfg env st res w1
    | (Err e, w1) => (Err e, w1)
    end.
Proof.
  intros Hm. unfold main, run_loop. rewrite Hm.
  cbv [bind]. rewrite !load_state_loaded.
  destruct (get_today_counts env (loaded (state_file (initial_world f))) (initial_world f))
    as [[already|e] w1]; [|reflexivity].
  destruct (attempts env (Z.to_nat (need_of cfg already))
              (loaded (state_file (initial_world f))) [] w1) as [[[st res]|e] w2];
    reflexivity.
Qed.

Lemma run_loop_trace (f : file) r1 w1 :
  run_loop cfg env f = (r1, w1) ->
  push_calls w1 = [] /\ report_json w1 = None /\ report_html w1 = None /\
  (forall x, r1 = Ok x ->
     exists already,
       count_on (ymd (clock env 0)) (loaded f) = Ok already /\
       draws_sent w1 = Z.to_nat (need_of cfg already) /\
       clock_reads w1 = S (draws_sent w1) /\
       length (snd x) = draws_sent w1).
Proof.
  unfold run_loop. cbv [bind]. rewrite load_state_loaded.
  cbn [state_file initial_world].
  destruct (count_on (day_now env (initial_world f)) (loaded f)) as [already|e] eqn:Hc.
  - rewrite (@get_today_counts_ok (loaded f) (initial_world f) already Hc).
    intros H. destruct (attempts_trace _ _ _ _ H) as [[Q1 [Q2 [Q3 Q4]]] [D [_ R]]].
    world_simpl. repeat (split; [assumption|]).
    intros x Hx. destruct (R x Hx) as [R1 [R2 [_ [recs [R4 R5]]]]].
    exists already. unfold initial_world in *. world_simpl. split; [exact Hc|].
    split; [lia|]. split; [lia|].
    rewrite R4. cbn [app]. lia.
  - destruct (@get_today_counts_err (loaded f) (initial_world f) e Hc)
      as [e' [w0 [E [I1 [I2 [Q1 [Q2 [Q3 Q4]]]]]]]].
    rewrite E. intros H. injection H as <- <-.
    world_simpl. repeat (split; [assumption|]).
    intros x Hx. discriminate.
Qed.


Lemma main_total (f : file) (already : Z) :
  missing_variables cfg = [] ->
  polite env ->
  readable env (loaded f) ->
  count_on (ymd (clock env 0)) (loaded f) = Ok already ->
  exists st items w1 w',
    run_loop cfg env f = (Ok (st, items), w1) /\
    finish cfg env st items w1 = (Ok tt, w') /\
    main cfg env (initial_world f) = (Ok tt, w').
Proof.
  intros Hm Hp Hr Hc.
  assert (Hl : exists st items w1,
             run_loop cfg env f = (Ok (st, items), w1) /\
             readable env st /\ forallb printable items = true).
  { unfold run_loop. cbv [bind]. rewrite load_state_loaded.
    cbn [state_file initial_world].
    rewrite (@get_today_counts_ok (loaded f) (initial_world f) already Hc).
    destruct (@attempts_total (Z.to_nat (need_of cfg already)) Hp (loaded f) []
                (tick (initial_world f)) Hr eq_refl) as [[st items] [w1 [E [R P]]]].
    exists st, items, w1. rewrite E. repeat split; assumption. }
  destruct Hl as [st [items [w1 [E [R P]]]]].
  destruct (@finish_total st items w1 R P) as [w' F].
  exists st, items, w1, w'. split; [exact E|]. split; [exact F|].
  rewrite (main_run_loop f Hm), E. exact F.
Qed.



Lemma has_success_iff (res : list attempt) :
  has_success res = true <->
  exists x, In x res /\ (topup_ok x = true \/ truthy (code x) = true).
Proof.
  unfold has_success. rewrite existsb_exists. split.
  - intros [x [Hx H]]. exists x. split; [exact Hx|].
    unfold py_or in H. cbn [truthy] in H.
    destruct (topup_ok x); [now left|now right].
  - intros [x [Hx H]]. exists x. split; [exact Hx|].
    unfold py_or. cbn [truthy].
    destruct (topup_ok x); [reflexivity|].
    destruct H as [H|H]; [discriminate|exact H].
Qed.


Lemma bumps_storable (k : nat) :
  forall t st st',
    storable st = true -> bumps env t k st = Ok st' -> storable st' = true.
Proof.
  induction k as [|k IH]; intros t st st' Hs H; cbn [bumps] in H.
  - now injection H as <-.
  - destruct (bump_on (ymd (clock env t)) st 1) as [st1|e] eqn:E; [|discriminate].
    eapply IH; [|exact H]. eapply bump_on_storable; eassumption.
Qed.

Lemma bumps_count (day : str) :
  (forall n, ymd (clock env n) = day) ->
  forall k t st c,
    count_on day st = Ok c ->
    exists st', bumps env t k st = Ok st' /\ count_on day st' = Ok (c + Z.of_nat k)%Z.
Proof.
  intros Hday. induction k as [|k IH]; intros t st c Hc.
  - exists st. split; [reflexivity|]. rewrite Z.add_0_r. exact Hc.
  - destruct (@bump_on_count _ _ _ _ Hc) as [st1 [Hb [Hc1 _]]].
    destruct (IH (S t) st1 _ Hc1) as [st' [Hk Hc']].
    exists st'. split.
    + cbn [bumps]. rewrite Hday, Hb. exact Hk.
    + rewrite Hc'. f_equal. lia.
Qed.

Lemma loaded_dumps (st : pyval) :
  storable st = true -> loaded (Content (json_dumps st)) = st.
Proof. intros H. unfold loaded. now rewrite json_loads_dumps. Qed.


End RunProperties.

(** ** Closed instances *)



(** C4, as stated, fails: after a field that is cut before its closing
    quote, the payload contains the field of [code_b]; the interpreter
    returns [code_a], which the opening quote of the field closes. *)
Lemma second_field_is_not_extracted :
  ~ (forall (status : Z) (pre h post : str),
       forallb is_hex h = true -> 16 <= length h ->
       code_of (interpret (rt:=sample_runtime) status (pre ++ code_field h ++ post))
       = VStr h).
Proof.
  intros H.
  specialize (H 200%Z (cut_field code_a) code_b [] eq_refl).
  assert (Hl : 16 <= length code_b) by (vm_compute; lia).
  specialize (H Hl). vm_compute in H. discriminate.
Qed.

Lemma interpret_extracts_leftmost_code_witness :
  code_of (interpret (rt:=sample_runtime) 200
             (u "0:junk{" ++ code_field code_a ++ u "}garbage" ++ code_field code_b))
  = VStr code_a.
Proof.
  apply (interpret_extracts_leftmost_code (rt:=sample_runtime) 200
           (u "0:junk{") code_a (u "}garbage" ++ code_field code_b)).
  - reflexivity.
  - vm_compute. lia.
  - intros i Hi.
    do 7 (destruct i as [|i]; [reflexivity|]).
    vm_compute in Hi. lia.
Defined.

(** C9, as stated, fails: a 403 body that contains the marker after its
    first 200 characters gets the expired-credentials message. *)
Lemma late_marker_is_not_seen :
  contains challenge_marker late_marker_body = true /\
  message_of (draw_outcome (rt:=sample_runtime) (answered 403 late_marker_body))
  = VStr msg_403_expired /\
  msg_403_expired <> msg_403_challenge.
Proof.
  split; [vm_compute; reflexivity|].
  split; [vm_compute; reflexivity|].
  vm_compute. discriminate.
Qed.

Lemma draw_outcome_status_policy_witness :
  draw_outcome (rt:=sample_runtime) (Answered resp_401)
  = (VNone, VStr msg_401, VDict [(u "status", VInt 401)]) /\
  draw_outcome (rt:=sample_runtime) (Answered resp_403)
  = (VNone,
     VStr (if contains challenge_marker (firstn 200 (text resp_403))
           then msg_403_challenge else msg_403_expired),
     VDict [(u "status", VInt 403);
            (u "preview", VStr (firstn 200 (text resp_403)))]) /\
  contains challenge_marker (firstn 200 (text resp_403)) = true /\
  draw_outcome (rt:=sample_runtime) (Answered resp_502)
  = (VNone,
     VStr (u "抽奖接口服务器错误：HTTP " ++ str_of_Z (status_code resp_502)),
     VDict [(u "status", VInt (status_code resp_502))]) /\
  draw_outcome (rt:=sample_runtime) (Answered resp_200)
  = interpret (rt:=sample_runtime) (status_code resp_200) (content_utf8 resp_200).
Proof.
  split; [|split; [|split; [|split]]].
  - exact (proj1 (draw_outcome_status_policy (rt:=sample_runtime) resp_401) eq_refl).
  - exact (proj1 (proj2 (draw_outcome_status_policy (rt:=sample_runtime) resp_403))
             eq_refl).
  - vm_compute. reflexivity.
  - refine (proj1 (proj2 (proj2 (draw_outcome_status_policy (rt:=sample_runtime)
                                   resp_502))) _).
    vm_compute. discriminate.
  - refine (proj1 (proj2 (proj2 (proj2 (draw_outcome_status_policy
                                          (rt:=sample_runtime) resp_200)))) _ _ _).
    + vm_compute. discriminate.
    + vm_compute. discriminate.
    + vm_compute. reflexivity.
Defined.


Lemma mask_code_spec_witness :
  mask_code (rt:=sample_runtime) (VStr (u "abc")) = Ok (u "****") /\
  mask_code (rt:=sample_runtime) (VStr (u "abcdef1234567890")) = Ok (u "abcd****7890").
Proof.
  split.
  - apply (proj1 (mask_code_spec (rt:=sample_runtime) (u "abc"))). vm_compute. lia.
  - destruct (proj2 (mask_code_spec (rt:=sample_runtime) (u "abcdef1234567890")))
      as [mid [_ [_ [_ H]]]]; [vm_compute; lia|exact H].
Defined.

(** ** Closed instances of the run *)

Lemma scenario_env_polite : polite (rt:=sample_runtime) scenario_env.
Proof.
  split.
  - intros [|n]; vm_compute; reflexivity.
  - intros n k. vm_compute. reflexivity.
Qed.

Lemma scenario_file_readable :
  readable (rt:=sample_runtime) scenario_env (loaded scenario_file).
Proof. intros n. exists 3%Z. vm_compute. reflexivity. Qed.





(** C3, at the failing input: in the scenario run the summary written to
    [summary.json] holds the code in full, next to its masked form, while
    the page shows the masked form only. *)
Theorem summary_json_holds_full_code :
  exists w' summary page,
    main (rt:=sample_runtime) sample_config scenario_env (initial_world scenario_file)
    = (Ok tt, w') /\
    report_json w' = Some summary /\
    contains (q "'code': 'abcdef1234567890'") summary = true /\
    contains (q "'code_mask': 'abcd****7890'") summary = true /\
    report_html w' = Some page /\
    contains (u "abcdef1234567890") page = false /\
    contains (u "abcd****7890") page = true.
Proof.
  do 3 eexists.
  split; [vm_compute; reflexivity|].
  split; [reflexivity|].
  split; [vm_compute; reflexivity|].
  split; [vm_compute; reflexivity|].
  split; [reflexivity|].
  split; vm_compute; reflexivity.
Qed.

